(** * Points-escrow ledger and moderation workflow of the clothing-swap app

    Shallow embedding of [src/lib/api.ts] (with the record types of
    [src/lib/types.ts] and the redemption handler of the item page) and the
    properties of the ledger established on it.

    Conventions of the embedding:
    - a Firestore collection is a finite map from document id to document
      ([gmap string _]); [doc(collection(db, c))] draws an id that is not yet
      used in collection [c] ([fresh]);
    - [number] fields that hold points are integers ([Z]); the code's
      additions and subtractions are exact as long as operands and result
      are safe integers ([safeInteger]), and the statements that depend on
      the exact result of one say so;
    - [serverTimestamp()] is the argument [now] of every operation;
    - [runTransaction] follows the contract the design relies on: reads see
      the store as it is when the unit starts, writes are buffered in order
      and are committed together, and an exception thrown by the body
      discards the buffer. The client refuses a read issued after a
      write: [transaction.get] then throws an [invalid-argument] error,
      which aborts the unit like any other exception;
    - a rejected promise is the value [Rejected logged error]: [logged] is
      what [handleApiError] writes on the console (the value thrown inside
      the unit) and [error] is the message of the [Error] it throws to the
      caller. *)

From stdpp Require Import gmap strings list fin_maps sorting.
From Stdlib Require Import ZArith Lia.

Open Scope string_scope.
Open Scope Z_scope.

(** ** Data model ([src/lib/types.ts]) *)

Definition Timestamp := Z.

Inductive ItemStatus :=
| ItemPending | ItemApproved | ItemRejected | ItemAvailable | ItemInTransit
| ItemCompleted.

Inductive OrderStatus :=
| OrderPending | OrderConfirmed | OrderShipped | OrderDelivered | OrderDisputed
| OrderCompleted.

Inductive TransactionType := earned | spent | expired | refunded.

#[global] Instance ItemStatus_eq_dec : EqDecision ItemStatus.
Proof. solve_decision. Defined.

#[global] Instance OrderStatus_eq_dec : EqDecision OrderStatus.
Proof. solve_decision. Defined.

#[global] Instance TransactionType_eq_dec : EqDecision TransactionType.
Proof. solve_decision. Defined.

(** A document of collection [users]. *)
Module User.
Record t := mk {
  id : string;
  email : option string;
  displayName : option string;
  photoURL : option string;
  points : Z;
  createdAt : Timestamp;
  lastActive : Timestamp;
  isAdmin : bool;
  isBanned : bool
}.
End User.

(** [Partial<User>] as [createUser] receives it; [id] is asserted present by
    [userData.id!]. *)
Module UserData.
Record t := mk {
  id : string;
  email : option string;
  displayName : option string;
  photoURL : option string;
  points : option Z;
  isAdmin : option bool;
  isBanned : option bool
}.
End UserData.

(** A document of collection [items]. *)
Module Item.
Record t := mk {
  title : string;
  ownerId : string;
  pointValue : option Z;
  openToSwap : bool;
  status : ItemStatus;
  moderationNotes : option string
}.
End Item.

(** [Partial<SwapOrder>] as [createSwapOrder] receives it; [itemId] and
    [buyerId] are asserted present by [orderData.itemId!] and
    [orderData.buyerId!]. *)
Module OrderData.
Record t := mk {
  itemId : string;
  buyerId : string;
  sellerId : option string;
  pointsAmount : option Z
}.
End OrderData.

(** A document of collection [swapOrders]. *)
Module SwapOrder.
Record t := mk {
  itemId : string;
  buyerId : string;
  sellerId : option string;
  pointsAmount : option Z;
  status : OrderStatus;
  createdAt : Timestamp
}.
End SwapOrder.

(** A document of collection [pointsTransactions]. *)
Module PointsTransaction.
Record t := mk {
  userId : string;
  amount : Z;
  type : TransactionType;
  reason : string;
  relatedOrderId : option string;
  createdAt : Timestamp
}.
End PointsTransaction.

(** The four collections of the store. *)
Record DB := mkDB {
  users : gmap string User.t;
  items : gmap string Item.t;
  swapOrders : gmap string SwapOrder.t;
  pointsTransactions : gmap string PointsTransaction.t
}.

Definition emptyDB : DB := mkDB ∅ ∅ ∅ ∅.

(** ** Thrown values and [handleApiError] *)

(** What a [catch] clause can receive: a plain [Error] (no [code] property)
    or a Firebase error carrying a [code]. *)
Inductive Thrown :=
| JsError (message : string)
| FirebaseError (code message : string).

(** [handleApiError]: the message of the [Error] thrown to the caller. A
    plain [Error] has no [code], so it falls through to the last [throw]. *)
Definition handleApiError (error : Thrown) : string :=
  match error with
  | FirebaseError code message =>
      if String.eqb code "" then "An unexpected error occurred"
      else if String.eqb code "permission-denied" then
        "You don't have permission to perform this action"
      else if String.eqb code "not-found" then
        "The requested resource was not found"
      else if String.eqb code "already-exists" then
        "This resource already exists"
      else if String.eqb code "failed-precondition" then
        "Operation failed due to invalid state"
      else if String.eqb code "unavailable" then
        "Service is temporarily unavailable. Please try again"
      else "Firebase Error: " ++ message
  | JsError _ => "An unexpected error occurred"
  end.

(** Outcome of an [async] API function. *)
Inductive ApiResult (A : Type) :=
| Resolved (value : A)
| Rejected (logged : Thrown) (error : string).
Arguments Resolved {A} value.
Arguments Rejected {A} logged error.

(** ** The transaction primitive *)

(** Buffered writes of a transaction. [transaction.update] names the fields
    it replaces. *)
Inductive Write :=
| SetUser (id : string) (data : User.t)
| UpdateUserPoints (id : string) (points : Z) (lastActive : Timestamp)
| SetSwapOrder (id : string) (data : SwapOrder.t)
| SetPointsTransaction (id : string) (data : PointsTransaction.t)
| UpdateItemStatus (id : string) (status : ItemStatus)
| UpdateItemModeration (id : string) (status : ItemStatus) (moderationNotes : string).

(** [transaction.update(userRef, {points, lastActive})] on a document. *)
Definition updateUserPoints (u : User.t) (points : Z) (lastActive : Timestamp)
  : User.t :=
  User.mk (User.id u) (User.email u) (User.displayName u) (User.photoURL u)
    points (User.createdAt u) lastActive (User.isAdmin u) (User.isBanned u).

(** [transaction.update(itemRef, {status})] on a document. *)
Definition updateItemStatus (it : Item.t) (status : ItemStatus) : Item.t :=
  Item.mk (Item.title it) (Item.ownerId it) (Item.pointValue it)
    (Item.openToSwap it) status (Item.moderationNotes it).

(** [transaction.update(itemRef, {status, moderationNotes})] on a
    document. *)
Definition updateItemModeration (it : Item.t) (status : ItemStatus)
    (moderationNotes : string) : Item.t :=
  Item.mk (Item.title it) (Item.ownerId it) (Item.pointValue it)
    (Item.openToSwap it) status (Some moderationNotes).

(** One write applied to the store. [update] of a document that does not
    exist makes the commit fail. *)
Definition applyWrite (w : Write) (db : DB) : option DB :=
  match w with
  | SetUser id data =>
      Some (mkDB (<[id := data]> (users db)) (items db) (swapOrders db)
              (pointsTransactions db))
  | UpdateUserPoints id p la =>
      match users db !! id with
      | Some u =>
          Some (mkDB (<[id := updateUserPoints u p la]> (users db)) (items db)
                  (swapOrders db) (pointsTransactions db))
      | None => None
      end
  | SetSwapOrder id data =>
      Some (mkDB (users db) (items db) (<[id := data]> (swapOrders db))
              (pointsTransactions db))
  | SetPointsTransaction id data =>
      Some (mkDB (users db) (items db) (swapOrders db)
              (<[id := data]> (pointsTransactions db)))
  | UpdateItemStatus id st =>
      match items db !! id with
      | Some it =>
          Some (mkDB (users db) (<[id := updateItemStatus it st]> (items db))
                  (swapOrders db) (pointsTransactions db))
      | None => None
      end
  | UpdateItemModeration id st notes =>
      match items db !! id with
      | Some it =>
          Some (mkDB (users db)
                  (<[id := updateItemModeration it st notes]> (items db))
                  (swapOrders db) (pointsTransactions db))
      | None => None
      end
  end.

(** The buffer committed in the order the writes were issued. *)
Fixpoint commit (ws : list Write) (db : DB) : option DB :=
  match ws with
  | [] => Some db
  | w :: ws' =>
      match applyWrite w db with
      | Some db' => commit ws' db'
      | None => None
      end
  end.

(** A transaction body: it reads the snapshot, extends the write buffer, and
    either throws or returns. *)
Definition Tx (A : Type) : Type :=
  DB -> list Write -> Thrown + (A * list Write).

#[global] Instance Tx_ret : MRet Tx :=
  fun A (a : A) _ ws => inr (a, ws).

#[global] Instance Tx_bind : MBind Tx :=
  fun A B (k : A -> Tx B) (m : Tx A) snap ws =>
    match m snap ws with
    | inl e => inl e
    | inr (a, ws') => k a snap ws'
    end.

Definition throw {A : Type} (e : Thrown) : Tx A := fun _ _ => inl e.

(** What [transaction.get] throws once a write has been buffered. *)
Definition readAfterWrite : Thrown :=
  FirebaseError "invalid-argument"
    "Firestore transactions require all reads to be executed before all writes.".

(** [transaction.get(userRef)]: a read of the snapshot, allowed only while
    the buffer is empty. *)
Definition getUserDoc (id : string) : Tx (option User.t) :=
  fun snap ws =>
    match ws with
    | [] => inr (users snap !! id, ws)
    | _ :: _ => inl readAfterWrite
    end.

(** [transaction.get(itemRef)]. *)
Definition getItemDoc (id : string) : Tx (option Item.t) :=
  fun snap ws =>
    match ws with
    | [] => inr (items snap !! id, ws)
    | _ :: _ => inl readAfterWrite
    end.

Definition write (w : Write) : Tx unit :=
  fun _ ws => inr (tt, (ws ++ [w])%list).

(** [doc(collection(db, "swapOrders"))]: a reference with a new id. *)
Definition newSwapOrderRef : Tx string :=
  fun snap ws => inr (fresh (dom (swapOrders snap)), ws).

(** [doc(collection(db, "pointsTransactions"))]. *)
Definition newPointsTransactionRef : Tx string :=
  fun snap ws => inr (fresh (dom (pointsTransactions snap)), ws).

(** [runTransaction(db, body)]: the outcome and the store afterwards. *)
Definition runTransaction {A : Type} (body : Tx A) (db : DB)
  : (Thrown + A) * DB :=
  match body db [] with
  | inl e => (inl e, db)
  | inr (a, ws) =>
      match commit ws db with
      | Some db' => (inr a, db')
      | None =>
          (inl (FirebaseError "not-found" "No document to update"), db)
      end
  end.

(** [try { return await ... } catch (error) { handleApiError(error) }]. *)
Definition tryApi {A : Type} (r : (Thrown + A) * DB) : ApiResult A * DB :=
  match r with
  | (inr a, db') => (Resolved a, db')
  | (inl e, db') => (Rejected e (handleApiError e), db')
  end.

(** The [await runTransaction(...)] whose value is dropped, followed by
    [return v]. *)
Definition thenReturn {A B : Type} (v : B) (r : (Thrown + A) * DB)
  : (Thrown + B) * DB :=
  match r with
  | (inr _, db') => (inr v, db')
  | (inl e, db') => (inl e, db')
  end.

(** ** User API *)

(** The document written by [transaction.set(userRef, {...userData, points:
    100, ...})]: the fields after the spread override those of [userData]. *)
Definition newUserDoc (now : Timestamp) (userData : UserData.t) : User.t :=
  User.mk (UserData.id userData) (UserData.email userData)
    (UserData.displayName userData) (UserData.photoURL userData)
    100 now now false false.

Definition createUserTx (now : Timestamp) (userData : UserData.t) : Tx unit :=
  userDoc ← getUserDoc (UserData.id userData);
  match userDoc with
  | None => write (SetUser (UserData.id userData) (newUserDoc now userData))
  | Some _ => mret tt
  end.

Definition createUser (now : Timestamp) (userData : UserData.t) (db : DB)
  : ApiResult string * DB :=
  tryApi (thenReturn (UserData.id userData)
            (runTransaction (createUserTx now userData) db)).

(** ** Swap-order API *)

(** [orderData.pointsAmount || 0]: an absent amount and the amount 0 both
    give 0. *)
Definition pointsNeeded (orderData : OrderData.t) : Z :=
  match OrderData.pointsAmount orderData with
  | Some n => n
  | None => 0
  end.

(** The document written by [transaction.set(orderRef, {...orderData,
    status: "pending", createdAt})]. *)
Definition newSwapOrderDoc (now : Timestamp) (orderData : OrderData.t)
  : SwapOrder.t :=
  SwapOrder.mk (OrderData.itemId orderData) (OrderData.buyerId orderData)
    (OrderData.sellerId orderData) (OrderData.pointsAmount orderData)
    OrderPending now.

Definition createSwapOrderTx (now : Timestamp) (orderData : OrderData.t)
  : Tx string :=
  buyerDoc ← getUserDoc (OrderData.buyerId orderData);
  match buyerDoc with
  | None => throw (JsError "Buyer not found")
  | Some buyer =>
      if User.points buyer <? pointsNeeded orderData
      then throw (JsError "Insufficient points")
      else
        itemDoc ← getItemDoc (OrderData.itemId orderData);
        match itemDoc with
        | None => throw (JsError "Item not found")
        | Some item =>
            if negb (bool_decide (Item.status item = ItemApproved))
            then throw (JsError "Item not available")
            else
              orderRef ← newSwapOrderRef;
              write (SetSwapOrder orderRef (newSwapOrderDoc now orderData));;
              write (UpdateUserPoints (OrderData.buyerId orderData)
                       (User.points buyer - pointsNeeded orderData) now);;
              transactionRef ← newPointsTransactionRef;
              write (SetPointsTransaction transactionRef
                       (PointsTransaction.mk (OrderData.buyerId orderData)
                          (- pointsNeeded orderData) spent
                          "Item purchase (escrowed)" (Some orderRef) now));;
              write (UpdateItemStatus (OrderData.itemId orderData)
                       ItemInTransit);;
              mret orderRef
        end
  end.

Definition createSwapOrder (now : Timestamp) (orderData : OrderData.t)
    (db : DB) : ApiResult string * DB :=
  tryApi (runTransaction (createSwapOrderTx now orderData) db).

(** ** Points-system API *)

Definition awardPointsTx (now : Timestamp) (userId : string) (amount : Z)
    (reason : string) : Tx unit :=
  userDoc ← getUserDoc userId;
  match userDoc with
  | None => throw (JsError "User not found")
  | Some user =>
      write (UpdateUserPoints userId (User.points user + amount) now);;
      transactionRef ← newPointsTransactionRef;
      write (SetPointsTransaction transactionRef
               (PointsTransaction.mk userId amount earned reason None now))
  end.

Definition awardPoints (now : Timestamp) (userId : string) (amount : Z)
    (reason : string) (db : DB) : ApiResult unit * DB :=
  tryApi (runTransaction (awardPointsTx now userId amount reason) db).

(** ** Admin API *)

(** [notes || ""]. *)
Definition notesOrEmpty (notes : option string) : string :=
  match notes with
  | Some s => s
  | None => ""
  end.

(** The body of [moderateItem]'s transaction: the owner's account is read
    after the listing update has been buffered. *)
Definition moderateItemTx (now : Timestamp) (itemId : string)
    (approved : bool) (notes : option string) : Tx unit :=
  itemDoc ← getItemDoc itemId;
  match itemDoc with
  | None => throw (JsError "Item not found")
  | Some item =>
      write (UpdateItemModeration itemId
               (if approved then ItemApproved else ItemRejected)
               (notesOrEmpty notes));;
      if approved then
        ownerDoc ← getUserDoc (Item.ownerId item);
        match ownerDoc with
        | Some owner =>
            write (UpdateUserPoints (Item.ownerId item)
                     (User.points owner + 50) now);;
            transactionRef ← newPointsTransactionRef;
            write (SetPointsTransaction transactionRef
                     (PointsTransaction.mk (Item.ownerId item) 50 earned
                        "Item listing approved" None now))
        | None => mret tt
        end
      else mret tt
  end.

Definition moderateItem (now : Timestamp) (itemId : string) (approved : bool)
    (notes : option string) (db : DB) : ApiResult unit * DB :=
  tryApi (runTransaction (moderateItemTx now itemId approved notes) db).

(** ** The redemption handler of the item page ([handleSwapRequest]) *)

(** What the handler does to the page. *)
Inductive HandlerEffect :=
| Ignored
| ShowError (message : string)
| Redirect (url : string).

(** [!item.pointValue]: absent, or the number 0. *)
Definition noPointValue (item : Item.t) : bool :=
  match Item.pointValue item with
  | None => true
  | Some v => v =? 0
  end.

(** The argument the handler passes to [createSwapOrder]: the seller and the
    amount are copied from the listing the page holds. The handler builds
    it only past its point-value check, where the amount is present. *)
Definition swapOrderData (itemId : string) (item : Item.t) (uid : string)
  : OrderData.t :=
  OrderData.mk itemId uid (Some (Item.ownerId item)) (Item.pointValue item).

(** [firebaseUser], [currentUser] and [item] are the page's state: the
    signed-in uid, the profile and the listing (with its id) loaded
    earlier. *)
Definition handleSwapRequest (now : Timestamp) (firebaseUser : option string)
    (currentUser : option User.t) (item : option (string * Item.t)) (db : DB)
  : HandlerEffect * DB :=
  match firebaseUser, currentUser, item with
  | Some uid, Some cu, Some (itemId, it) =>
      if noPointValue it
      then (ShowError "This item doesn't have a point value set", db)
      else if User.points cu <? default 0 (Item.pointValue it)
      then (ShowError "Insufficient points for this item", db)
      else
        match createSwapOrder now (swapOrderData itemId it uid) db with
        | (Resolved _, db') =>
            (Redirect "/dashboard?tab=purchases&success=swap-requested", db')
        | (Rejected _ error, db') => (ShowError error, db')
        end
  | _, _, _ => (Ignored, db)
  end.

(** ** Sequences of core operations *)

Inductive Op :=
| CreateUser (userData : UserData.t)
| CreateSwapOrder (orderData : OrderData.t)
| ModerateItem (itemId : string) (approved : bool) (notes : option string)
| AwardPoints (userId : string) (amount : Z) (reason : string).

(** The store after one call, whatever the call returned. *)
Definition step (now : Timestamp) (op : Op) (db : DB) : DB :=
  match op with
  | CreateUser userData => snd (createUser now userData db)
  | CreateSwapOrder orderData => snd (createSwapOrder now orderData db)
  | ModerateItem itemId approved notes =>
      snd (moderateItem now itemId approved notes db)
  | AwardPoints userId amount reason =>
      snd (awardPoints now userId amount reason db)
  end.

(** The calls are issued one after the other, each at its own time. *)
Fixpoint run (ops : list (Timestamp * Op)) (db : DB) : DB :=
  match ops with
  | [] => db
  | (now, op) :: ops' => run ops' (step now op db)
  end.

(** ** Vocabulary of the properties *)

(** Sum of the amounts of the transactions recorded for [userId] (the
    documents [getUserTransactions] selects by [userId]). *)
Definition ledgerSum (userId : string)
    (txs : gmap string PointsTransaction.t) : Z :=
  map_fold (fun _ t acc =>
              if decide (PointsTransaction.userId t = userId)
              then PointsTransaction.amount t + acc else acc) 0 txs.

(** Stored balance of an account, when the account exists. *)
Definition balance (userId : string) (db : DB) : option Z :=
  User.points <$> users db !! userId.

(** An account's balance and the sum of its transactions are [offset]
    apart, and no transaction is recorded for an account that does not
    exist. *)
Definition ledgerOffset (offset : Z) (db : DB) : Prop :=
  forall uid,
    ledgerSum uid (pointsTransactions db)
    = match users db !! uid with
      | Some u => User.points u - offset
      | None => 0
      end.

(** The error kinds of the design, as the values thrown inside the atomic
    units. *)
Definition AccountNotFound : Thrown := JsError "Buyer not found".
Definition InsufficientBalance : Thrown := JsError "Insufficient points".
Definition ItemUnavailable (e : Thrown) : Prop :=
  e = JsError "Item not found" \/ e = JsError "Item not available".

(** The message under which [handleApiError] reports each of them. *)
Definition unexpected : string := "An unexpected error occurred".

(** [Number.isSafeInteger]: the integers that the code's numbers hold
    exactly, with exact sums and differences between them as long as the
    result is one of them too. *)
Definition safeInteger (n : Z) : Prop :=
  - (2 ^ 53 - 1) <= n <= 2 ^ 53 - 1.

Definition nonNegativeBalances (db : DB) : Prop :=
  forall uid u, users db !! uid = Some u -> 0 <= User.points u.

(** The amount an operation credits or debits is positive. *)
Definition positiveAmount (op : Op) : Prop :=
  match op with
  | AwardPoints _ amount _ => 0 < amount
  | CreateSwapOrder orderData => 0 < pointsNeeded orderData
  | CreateUser _ | ModerateItem _ _ _ => True
  end.

(** ** The store after each committed unit *)

(** The store after a committed redemption. *)
Definition redeemed (now : Timestamp) (orderData : OrderData.t)
    (buyer : User.t) (item : Item.t) (db : DB) : DB :=
  mkDB
    (<[OrderData.buyerId orderData :=
         updateUserPoints buyer (User.points buyer - pointsNeeded orderData)
           now]> (users db))
    (<[OrderData.itemId orderData := updateItemStatus item ItemInTransit]>
       (items db))
    (<[fresh (dom (swapOrders db)) := newSwapOrderDoc now orderData]>
       (swapOrders db))
    (<[fresh (dom (pointsTransactions db)) :=
         PointsTransaction.mk (OrderData.buyerId orderData)
           (- pointsNeeded orderData) spent "Item purchase (escrowed)"
           (Some (fresh (dom (swapOrders db)))) now]>
       (pointsTransactions db)).

(** The store after [amount] points were credited to [user]. *)
Definition credited (now : Timestamp) (userId : string) (user : User.t)
    (amount : Z) (reason : string) (db : DB) : DB :=
  mkDB
    (<[userId := updateUserPoints user (User.points user + amount) now]>
       (users db))
    (items db) (swapOrders db)
    (<[fresh (dom (pointsTransactions db)) :=
         PointsTransaction.mk userId amount earned reason None now]>
       (pointsTransactions db)).

(** The listing after a moderation decision. *)
Definition moderated (item : Item.t) (approved : bool) (notes : option string)
  : Item.t :=
  updateItemModeration item (if approved then ItemApproved else ItemRejected)
    (notesOrEmpty notes).

(** ** Example stores *)

Definition account (uid : string) (points : Z) : User.t :=
  User.mk uid None (Some uid) None points 0 0 false false.

Definition listing (ownerId : string) (pointValue : option Z)
    (status : ItemStatus) : Item.t :=
  Item.mk "Wool coat" ownerId pointValue true status None.

(** A buyer with [points] points, a seller, and the seller's listing
    ["coat"]. *)
Definition store (points : Z) (coat : Item.t) : DB :=
  mkDB (<["buyer" := account "buyer" points]>
          (<["seller" := account "seller" 100]> ∅))
    (<["coat" := coat]> ∅) ∅ ∅.

(** ** Reads and direct updates *)

(** [getUser]: [null] when the document does not exist (and when the read
    fails); otherwise the stored fields. The stored [id] field, which
    [createUser] writes equal to the document id, comes after [id:
    docSnap.id] in the object literal. *)
Definition getUser (userId : string) (db : DB) : option User.t :=
  users db !! userId.

(** [getItem]: [null] when the document does not exist; otherwise the
    document id together with the stored fields. *)
Definition getItem (itemId : string) (db : DB) : option (string * Item.t) :=
  match items db !! itemId with
  | Some data => Some (itemId, data)
  | None => None
  end.

(** [updateDoc(ref, f)] on one collection: the document must exist. *)
Definition updateDoc {A : Type} (id : string) (f : A -> A)
    (m : gmap string A) : Thrown + gmap string A :=
  match m !! id with
  | Some data => inr (<[id := f data]> m)
  | None => inl (FirebaseError "not-found" "No document to update")
  end.

(** The field [new] of an update object, when present, replaces [old]. *)
Definition orKeep {A : Type} (new : option A) (old : A) : A :=
  match new with
  | Some v => v
  | None => old
  end.

(** The same for a field that the document itself may lack. *)
Definition orKeepOpt {A : Type} (new : option A) (old : option A)
  : option A :=
  match new with
  | Some v => Some v
  | None => old
  end.

(** [Partial<User>] as [updateUser] receives it. *)
Module UserUpdates.
Record t := mk {
  id : option string;
  email : option string;
  displayName : option string;
  photoURL : option string;
  points : option Z;
  createdAt : option Timestamp;
  isAdmin : option bool;
  isBanned : option bool
}.
End UserUpdates.

(** [{...updates, lastActive: serverTimestamp()}] merged into a document. *)
Definition applyUserUpdates (now : Timestamp) (updates : UserUpdates.t)
    (u : User.t) : User.t :=
  User.mk (orKeep (UserUpdates.id updates) (User.id u))
    (orKeepOpt (UserUpdates.email updates) (User.email u))
    (orKeepOpt (UserUpdates.displayName updates) (User.displayName u))
    (orKeepOpt (UserUpdates.photoURL updates) (User.photoURL u))
    (orKeep (UserUpdates.points updates) (User.points u))
    (orKeep (UserUpdates.createdAt updates) (User.createdAt u))
    now
    (orKeep (UserUpdates.isAdmin updates) (User.isAdmin u))
    (orKeep (UserUpdates.isBanned updates) (User.isBanned u)).

Definition updateUser (now : Timestamp) (userId : string)
    (updates : UserUpdates.t) (db : DB) : ApiResult unit * DB :=
  tryApi
    match updateDoc userId (applyUserUpdates now updates) (users db) with
    | inr users' =>
        (inr tt, mkDB users' (items db) (swapOrders db) (pointsTransactions db))
    | inl e => (inl e, db)
    end.

(** [Partial<Item>], restricted to the fields [Item.t] carries. *)
Module ItemUpdates.
Record t := mk {
  title : option string;
  ownerId : option string;
  pointValue : option Z;
  openToSwap : option bool;
  status : option ItemStatus;
  moderationNotes : option string
}.
End ItemUpdates.

Definition applyItemUpdates (updates : ItemUpdates.t) (it : Item.t) : Item.t :=
  Item.mk (orKeep (ItemUpdates.title updates) (Item.title it))
    (orKeep (ItemUpdates.ownerId updates) (Item.ownerId it))
    (orKeepOpt (ItemUpdates.pointValue updates) (Item.pointValue it))
    (orKeep (ItemUpdates.openToSwap updates) (Item.openToSwap it))
    (orKeep (ItemUpdates.status updates) (Item.status it))
    (orKeepOpt (ItemUpdates.moderationNotes updates) (Item.moderationNotes it)).

Definition updateItem (itemId : string) (updates : ItemUpdates.t) (db : DB)
  : ApiResult unit * DB :=
  tryApi
    match updateDoc itemId (applyItemUpdates updates) (items db) with
    | inr items' =>
        (inr tt, mkDB (users db) items' (swapOrders db) (pointsTransactions db))
    | inl e => (inl e, db)
    end.

(** [Partial<SwapOrder>], restricted to the fields [SwapOrder.t] carries. *)
Module SwapOrderUpdates.
Record t := mk {
  itemId : option string;
  buyerId : option string;
  sellerId : option string;
  pointsAmount : option Z;
  status : option OrderStatus;
  createdAt : option Timestamp
}.
End SwapOrderUpdates.

Definition applySwapOrderUpdates (updates : SwapOrderUpdates.t)
    (o : SwapOrder.t) : SwapOrder.t :=
  SwapOrder.mk (orKeep (SwapOrderUpdates.itemId updates) (SwapOrder.itemId o))
    (orKeep (SwapOrderUpdates.buyerId updates) (SwapOrder.buyerId o))
    (orKeepOpt (SwapOrderUpdates.sellerId updates) (SwapOrder.sellerId o))
    (orKeepOpt (SwapOrderUpdates.pointsAmount updates)
       (SwapOrder.pointsAmount o))
    (orKeep (SwapOrderUpdates.status updates) (SwapOrder.status o))
    (orKeep (SwapOrderUpdates.createdAt updates) (SwapOrder.createdAt o)).

Definition updateSwapOrder (orderId : string) (updates : SwapOrderUpdates.t)
    (db : DB) : ApiResult unit * DB :=
  tryApi
    match updateDoc orderId (applySwapOrderUpdates updates) (swapOrders db) with
    | inr orders' =>
        (inr tt, mkDB (users db) (items db) orders' (pointsTransactions db))
    | inl e => (inl e, db)
    end.

(** ** Items API: [createItem] *)

(** [Partial<Item>] as [createItem] receives it, restricted to the fields
    [Item.t] carries; the listing form always supplies [title], [ownerId]
    and [openToSwap]. *)
Module ItemData.
Record t := mk {
  title : string;
  ownerId : string;
  pointValue : option Z;
  openToSwap : bool;
  status : option ItemStatus;
  moderationNotes : option string
}.
End ItemData.

(** The document written by [addDoc(collection(db, "items"), {...itemData,
    status: "pending", ...})]: [status] after the spread overrides the one
    of [itemData]. *)
Definition newItemDoc (itemData : ItemData.t) : Item.t :=
  Item.mk (ItemData.title itemData) (ItemData.ownerId itemData)
    (ItemData.pointValue itemData) (ItemData.openToSwap itemData)
    ItemPending (ItemData.moderationNotes itemData).

(** [addDoc] stores the document under a new id and returns the id. *)
Definition createItem (itemData : ItemData.t) (db : DB)
  : ApiResult string * DB :=
  let docRef := fresh (dom (items db)) in
  tryApi
    (inr docRef,
     mkDB (users db) (<[docRef := newItemDoc itemData]> (items db))
       (swapOrders db) (pointsTransactions db)).

(** ** Points history: [getUserTransactions] *)

(** The order of [orderBy("createdAt", "desc")] on documents paired with
    their ids: later first, and for equal times the document with the
    greater id first. *)
Definition newerFirst (a b : string * PointsTransaction.t) : Prop :=
  PointsTransaction.createdAt (snd b) < PointsTransaction.createdAt (snd a)
  \/ (PointsTransaction.createdAt (snd a) = PointsTransaction.createdAt (snd b)
      /\ String.leb (fst b) (fst a) = true).

#[global] Instance newerFirst_dec : RelDecision newerFirst.
Proof. intros a b. unfold newerFirst. apply _. Defined.

(** [where("userId", "==", userId)]. *)
Definition ofUser (userId : string) (kt : string * PointsTransaction.t)
  : Prop :=
  PointsTransaction.userId (snd kt) = userId.

#[global] Instance ofUser_dec userId kt : Decision (ofUser userId kt).
Proof. unfold ofUser. apply _. Defined.

(** [getUserTransactions(userId, pageSize)]: the page of documents, each
    with its id, for a store that serves the query. [limit] refuses a page
    size that is not positive; the [catch] turns that, like every failure,
    into the empty list. *)
Definition getUserTransactions (userId : string) (pageSize : Z) (db : DB)
  : list (string * PointsTransaction.t) :=
  if pageSize <=? 0 then []
  else
    take (Z.to_nat pageSize)
      (merge_sort newerFirst
         (filter (ofUser userId) (map_to_list (pointsTransactions db)))).

(** ** The moderation handler of the admin page ([handleModeration]) *)

Module AdminPage.
Record t := mk {
  pendingItems : list (string * Item.t);
  moderationNotes : string;
  error : option string
}.
End AdminPage.

(** [moderateItem] is called with the notes typed on the page. On success
    the listing is dropped from the pending list and the notes are cleared;
    on failure the message is shown. *)
Definition handleModeration (now : Timestamp) (itemId : string)
    (approved : bool) (page : AdminPage.t) (db : DB) : AdminPage.t * DB :=
  match moderateItem now itemId approved
          (Some (AdminPage.moderationNotes page)) db with
  | (Resolved _, db') =>
      (AdminPage.mk
         (filter (fun item => fst item <> itemId) (AdminPage.pendingItems page))
         "" (AdminPage.error page), db')
  | (Rejected _ error, db') =>
      (AdminPage.mk (AdminPage.pendingItems page)
         (AdminPage.moderationNotes page) (Some error), db')
  end.

(** ** The image picker of the listing form *)

Module File.
Record t := mk {
  name : string;
  type : string;
  size : Z
}.
End File.

(** The message the [filter] callback of [handleImageUpload] sets for a file
    it refuses; [None] for a file it keeps. *)
Definition fileError (file : File.t) : option string :=
  if negb (String.prefix "image/" (File.type file))
  then Some (File.name file ++ " is not an image file")%string
  else if 5 * 1024 * 1024 <? File.size file
  then Some (File.name file ++ " is too large (max 5MB)")%string
  else None.

Definition validFile (file : File.t) : Prop := fileError file = None.

#[global] Instance validFile_dec file : Decision (validFile file).
Proof. unfold validFile. apply _. Defined.

(** The error state after the callback has run over [files]: each refused
    file overwrites the message. *)
Definition lastError (files : list File.t) (error : string) : string :=
  fold_left (fun e file => match fileError file with
                           | Some message => message
                           | None => e
                           end) files error.

Module ListItemPage.
Record t := mk {
  images : list File.t;
  imagePreviews : list string;
  error : string
}.
End ListItemPage.

(** [handleImageUpload] on the files of the input element. The previews are
    appended later, when the readers finish, and are not part of this
    step. *)
Definition handleImageUpload (files : list File.t) (page : ListItemPage.t)
  : ListItemPage.t :=
  if (6 <? length (ListItemPage.images page) + length files)%nat
  then ListItemPage.mk (ListItemPage.images page)
         (ListItemPage.imagePreviews page) "Maximum 6 images allowed"
  else
    let validFiles := filter validFile files in
    match validFiles with
    | [] => ListItemPage.mk (ListItemPage.images page)
              (ListItemPage.imagePreviews page)
              (lastError files (ListItemPage.error page))
    | _ :: _ => ListItemPage.mk (ListItemPage.images page ++ validFiles)%list
                  (ListItemPage.imagePreviews page) ""
    end.

(** [xs.filter((_, i) => i !== index)]. *)
Fixpoint dropIndexFrom {A : Type} (i index : nat) (xs : list A) : list A :=
  match xs with
  | [] => []
  | x :: xs' =>
      if bool_decide (i <> index) then x :: dropIndexFrom (S i) index xs'
      else dropIndexFrom (S i) index xs'
  end.

Definition removeImage (index : nat) (page : ListItemPage.t)
  : ListItemPage.t :=
  ListItemPage.mk (dropIndexFrom 0 index (ListItemPage.images page))
    (dropIndexFrom 0 index (ListItemPage.imagePreviews page))
    (ListItemPage.error page).

(** ** Sequences of calls that include listing creation *)

Inductive Call :=
| Core (op : Op)
| CreateItem (itemData : ItemData.t).

Definition stepCall (now : Timestamp) (call : Call) (db : DB) : DB :=
  match call with
  | Core op => step now op db
  | CreateItem itemData => snd (createItem itemData db)
  end.

Fixpoint runCalls (calls : list (Timestamp * Call)) (db : DB) : DB :=
  match calls with
  | [] => db
  | (now, call) :: calls' => runCalls calls' (stepCall now call db)
  end.

(** Every transaction belongs to an existing account and is of type
    [earned] or [spent]; an [earned] one names no order; a [spent] one names
    an existing order of the same buyer for the same amount. *)
Definition transactionsReferenced (db : DB) : Prop :=
  forall k t,
    pointsTransactions db !! k = Some t ->
    is_Some (users db !! PointsTransaction.userId t)
    /\ match PointsTransaction.type t with
       | earned => PointsTransaction.relatedOrderId t = None
       | spent =>
           exists orderId o,
             PointsTransaction.relatedOrderId t = Some orderId
             /\ swapOrders db !! orderId = Some o
             /\ SwapOrder.buyerId o = PointsTransaction.userId t
             /\ PointsTransaction.amount t
                = - default 0 (SwapOrder.pointsAmount o)
       | expired | refunded => False
       end.

(** Every swap order is [pending] and names an existing buyer and an
    existing listing. *)
Definition ordersReferenced (db : DB) : Prop :=
  forall k o,
    swapOrders db !! k = Some o ->
    SwapOrder.status o = OrderPending
    /\ is_Some (users db !! SwapOrder.buyerId o)
    /\ is_Some (items db !! SwapOrder.itemId o).

(** Every listing that is [in-transit] has a swap order. *)
Definition inTransitOrdered (db : DB) : Prop :=
  forall itemId item,
    items db !! itemId = Some item ->
    Item.status item = ItemInTransit ->
    exists k o, swapOrders db !! k = Some o /\ SwapOrder.itemId o = itemId.

(** Two successive update objects as one: a field of [second], when
    present, wins over the same field of [first]. *)
Definition mergeItemUpdates (first second : ItemUpdates.t) : ItemUpdates.t :=
  ItemUpdates.mk
    (orKeepOpt (ItemUpdates.title second) (ItemUpdates.title first))
    (orKeepOpt (ItemUpdates.ownerId second) (ItemUpdates.ownerId first))
    (orKeepOpt (ItemUpdates.pointValue second) (ItemUpdates.pointValue first))
    (orKeepOpt (ItemUpdates.openToSwap second) (ItemUpdates.openToSwap first))
    (orKeepOpt (ItemUpdates.status second) (ItemUpdates.status first))
    (orKeepOpt (ItemUpdates.moderationNotes second)
       (ItemUpdates.moderationNotes first)).

(** The update object without fields, and the ones that set a single
    field. *)
Definition noItemUpdates : ItemUpdates.t :=
  ItemUpdates.mk None None None None None None.

Definition setItemStatus (status : ItemStatus) : ItemUpdates.t :=
  ItemUpdates.mk None None None None (Some status) None.

Definition setUserPoints (points : Z) : UserUpdates.t :=
  UserUpdates.mk None None None None (Some points) None None None.

(** Sum of the amounts of a page of transactions. *)
Definition sumAmounts (page : list (string * PointsTransaction.t)) : Z :=
  foldr (fun kt acc => PointsTransaction.amount (snd kt) + acc) 0 page.

(** [a] is listed before [b] only if it is not older. *)
Definition notOlder (a b : string * PointsTransaction.t) : Prop :=
  PointsTransaction.createdAt (snd b) <= PointsTransaction.createdAt (snd a).

(** The elementary changes a call makes to the store: none, a new account
    with the welcome bonus, a new pending listing, a committed redemption, a
    moderation decision, a credit with its transaction. *)
Inductive transition (db : DB) : DB -> Prop :=
| tr_none : transition db db
| tr_user uid u :
    users db !! uid = None ->
    transition db
      (mkDB (<[uid := u]> (users db)) (items db) (swapOrders db)
         (pointsTransactions db))
| tr_item item :
    Item.status item = ItemPending ->
    transition db
      (mkDB (users db) (<[fresh (dom (items db)) := item]> (items db))
         (swapOrders db) (pointsTransactions db))
| tr_redeem now orderData buyer item :
    users db !! OrderData.buyerId orderData = Some buyer ->
    items db !! OrderData.itemId orderData = Some item ->
    transition db (redeemed now orderData buyer item db)
| tr_moderate itemId item approved notes :
    items db !! itemId = Some item ->
    transition db
      (mkDB (users db) (<[itemId := moderated item approved notes]> (items db))
         (swapOrders db) (pointsTransactions db))
| tr_credit now userId user amount reason :
    users db !! userId = Some user ->
    transition db (credited now userId user amount reason db).

(** The fields of an account that only [updateUser] can change. *)
Definition sameProfile (u u' : User.t) : Prop :=
  User.id u' = User.id u /\ User.email u' = User.email u
  /\ User.displayName u' = User.displayName u
  /\ User.photoURL u' = User.photoURL u
  /\ User.createdAt u' = User.createdAt u
  /\ User.isAdmin u' = User.isAdmin u /\ User.isBanned u' = User.isBanned u.

(** The fields of a listing that only [updateItem] can change. *)
Definition sameOffer (item item' : Item.t) : Prop :=
  Item.title item' = Item.title item /\ Item.ownerId item' = Item.ownerId item
  /\ Item.pointValue item' = Item.pointValue item
  /\ Item.openToSwap item' = Item.openToSwap item.

(** Example stores built by the code: two accounts and bob's listing, which
    [updateItem] then marks [approved]; after that a credit to ann and her
    redemption of the listing. *)
Definition sampleSetup : list (Timestamp * Call) :=
  [(1, Core (CreateUser (UserData.mk "ann" None None None None None None)));
   (2, Core (CreateUser (UserData.mk "bob" None None None None None None)));
   (3, CreateItem (ItemData.mk "Scarf" "bob" (Some 30) false None None))].

Definition listedStore : DB :=
  snd (updateItem "0" (setItemStatus ItemApproved)
         (runCalls sampleSetup emptyDB)).

Definition sampleCalls : list (Timestamp * Call) :=
  [(5, Core (AwardPoints "ann" 25 "referral"));
   (6, Core (CreateSwapOrder (OrderData.mk "0" "ann" (Some "bob") (Some 30))))].

Definition sampleStore : DB := runCalls sampleCalls listedStore.

(** Every stored balance is a safe integer. *)
Definition safeBalances (db : DB) : Prop :=
  map_Forall (fun _ u => safeInteger (User.points u)) (users db).

(** The amount a call credits or debits is a safe integer. *)
Definition safeAmount (call : Call) : Prop :=
  match call with
  | Core (AwardPoints _ amount _) => safeInteger amount
  | Core (CreateSwapOrder orderData) => safeInteger (pointsNeeded orderData)
  | Core (CreateUser _) | Core (ModerateItem _ _ _) | CreateItem _ => True
  end.

#[global] Instance safeInteger_dec n : Decision (safeInteger n).
Proof. unfold safeInteger. apply _. Defined.

#[global] Instance safeBalances_dec db : Decision (safeBalances db).
Proof. unfold safeBalances. apply _. Defined.

(** ** The operations as equations on the store *)

Ltac unfold_tx :=
  unfold tryApi, thenReturn, runTransaction, mbind, mret, Tx_bind, Tx_ret,
    throw, getUserDoc, getItemDoc, write, newSwapOrderRef,
    newPointsTransactionRef.

Lemma createSwapOrder_eq now orderData db :
  createSwapOrder now orderData db =
  match users db !! OrderData.buyerId orderData with
  | None => (Rejected (JsError "Buyer not found") unexpected, db)
  | Some buyer =>
      if User.points buyer <? pointsNeeded orderData
      then (Rejected (JsError "Insufficient points") unexpected, db)
      else
        match items db !! OrderData.itemId orderData with
        | None => (Rejected (JsError "Item not found") unexpected, db)
        | Some item =>
            if bool_decide (Item.status item = ItemApproved)
            then (Resolved (fresh (dom (swapOrders db))),
                  redeemed now orderData buyer item db)
            else (Rejected (JsError "Item not available") unexpected, db)
        end
  end.
Proof.
  unfold createSwapOrder, createSwapOrderTx. unfold_tx.
  destruct (users db !! OrderData.buyerId orderData) as [buyer|] eqn:Hb;
    [|reflexivity].
  destruct (User.points buyer <? pointsNeeded orderData); [reflexivity|].
  destruct (items db !! OrderData.itemId orderData) as [item|] eqn:Hi;
    [|reflexivity].
  destruct (bool_decide (Item.status item = ItemApproved)); [|reflexivity].
  cbn [negb app commit applyWrite users items swapOrders pointsTransactions].
  rewrite Hb.
  cbn [commit applyWrite users items swapOrders pointsTransactions].
  rewrite Hi. reflexivity.
Qed.

Lemma createUser_eq now userData db :
  createUser now userData db =
  (Resolved (UserData.id userData),
   match users db !! UserData.id userData with
   | None =>
       mkDB (<[UserData.id userData := newUserDoc now userData]> (users db))
         (items db) (swapOrders db) (pointsTransactions db)
   | Some _ => db
   end).
Proof.
  unfold createUser, createUserTx. unfold_tx.
  destruct (users db !! UserData.id userData); reflexivity.
Qed.

Lemma awardPoints_eq now userId amount reason db :
  awardPoints now userId amount reason db =
  match users db !! userId with
  | None => (Rejected (JsError "User not found") unexpected, db)
  | Some user => (Resolved tt, credited now userId user amount reason db)
  end.
Proof.
  unfold awardPoints, awardPointsTx. unfold_tx.
  destruct (users db !! userId) as [user|] eqn:Hu; [|reflexivity].
  cbn [app commit applyWrite users items swapOrders pointsTransactions].
  rewrite Hu. reflexivity.
Qed.

Lemma moderateItem_eq now itemId approved notes db :
  moderateItem now itemId approved notes db =
  match items db !! itemId with
  | None => (Rejected (JsError "Item not found") unexpected, db)
  | Some item =>
      if approved
      then (Rejected readAfterWrite (handleApiError readAfterWrite), db)
      else
        (Resolved tt,
         mkDB (users db) (<[itemId := moderated item false notes]> (items db))
           (swapOrders db) (pointsTransactions db))
  end.
Proof.
  unfold moderateItem, moderateItemTx. unfold_tx.
  destruct (items db !! itemId) as [item|] eqn:Hi; [|reflexivity].
  destruct approved; [reflexivity|].
  cbn [app commit applyWrite users items swapOrders pointsTransactions].
  rewrite Hi. reflexivity.
Qed.

Lemma fresh_key_None {A} (m : gmap string A) : m !! fresh (dom m) = None.
Proof. apply not_elem_of_dom. apply is_fresh. Qed.

Lemma pointsNeeded_swapOrderData itemId item uid pv :
  Item.pointValue item = Some pv ->
  pointsNeeded (swapOrderData itemId item uid) = pv.
Proof. intros Hpv. unfold pointsNeeded, swapOrderData. cbn. now rewrite Hpv. Qed.

(** ** Redemption ([createSwapOrder]) *)

(** C1, as stated, fails: [createSwapOrder] takes the amount and the seller
    from the request and never reads the listing's [pointValue] or
    [ownerId]. With the listing [approved] and priced 150 and a buyer
    holding 200, a request for that listing carrying the amount 1 and
    another seller commits: the buyer is debited 1, not 150, the swap order
    names that seller and that amount, and the transaction is of -1. *)
Lemma createSwapOrder_trusts_request :
  let coat := listing "seller" (Some 150) ItemApproved in
  let db := store 200 coat in
  let r := createSwapOrder 7
             (OrderData.mk "coat" "buyer" (Some "mallory") (Some 1)) db in
  items db !! "coat" = Some coat
  /\ Item.status coat = ItemApproved
  /\ Item.pointValue coat = Some 150
  /\ balance "buyer" db = Some 200
  /\ fst r = Resolved "0"
  /\ balance "buyer" (snd r) = Some 199
  /\ swapOrders (snd r) !! "0"
     = Some (SwapOrder.mk "coat" "buyer" (Some "mallory") (Some 1)
               OrderPending 7)
  /\ pointsTransactions (snd r) !! "0"
     = Some (PointsTransaction.mk "buyer" (-1) spent
               "Item purchase (escrowed)" (Some "0") 7).
Proof.
  intros coat db r. subst r. rewrite createSwapOrder_eq. repeat split.
Qed.

(** C1, amended. A redemption request that carries the listing's point
    value as its amount and the listing's owner as its seller, for a
    listing that exists with status [approved] and a positive point value
    [pv], made by an existing buyer whose balance is a safe integer of at
    least [pv], resolves with the id of a new swap order, and the store
    after the call differs from the store before it in exactly this: the
    buyer's balance is lower by [pv]; a swap order with status [pending]
    naming the listing, the buyer, the listing's owner as seller and the
    amount [pv] exists under a new id; the listing has status
    [in-transit]; one transaction of amount [- pv] and type [spent] for the
    buyer exists under a new id. *)
Theorem createSwapOrder_redeems now db orderData item buyer pv :
  let itemId := OrderData.itemId orderData in
  let uid := OrderData.buyerId orderData in
  items db !! itemId = Some item ->
  Item.status item = ItemApproved ->
  Item.pointValue item = Some pv ->
  0 < pv ->
  OrderData.pointsAmount orderData = Some pv ->
  OrderData.sellerId orderData = Some (Item.ownerId item) ->
  users db !! uid = Some buyer ->
  safeInteger (User.points buyer) ->
  pv <= User.points buyer ->
  let orderRef := fresh (dom (swapOrders db)) in
  let transactionRef := fresh (dom (pointsTransactions db)) in
  exists db',
    createSwapOrder now orderData db = (Resolved orderRef, db')
    /\ users db' =
         <[uid := updateUserPoints buyer (User.points buyer - pv) now]>
           (users db)
    /\ balance uid db' = Some (User.points buyer - pv)
    /\ swapOrders db !! orderRef = None
    /\ swapOrders db' =
         <[orderRef := SwapOrder.mk itemId uid (Some (Item.ownerId item))
                         (Some pv) OrderPending now]> (swapOrders db)
    /\ items db' = <[itemId := updateItemStatus item ItemInTransit]> (items db)
    /\ Item.status <$> items db' !! itemId = Some ItemInTransit
    /\ pointsTransactions db !! transactionRef = None
    /\ pointsTransactions db' =
         <[transactionRef := PointsTransaction.mk uid (- pv) spent
                               "Item purchase (escrowed)" (Some orderRef) now]>
           (pointsTransactions db).
Proof.
  intros itemId uid Hitem Hst Hpv _ Hamount Hseller Hbuyer _ Hle
    orderRef transactionRef.
  subst itemId uid.
  assert (Hneeded : pointsNeeded orderData = pv)
    by (unfold pointsNeeded; now rewrite Hamount).
  rewrite createSwapOrder_eq, Hneeded, Hbuyer, Hitem.
  destruct (Z.ltb_spec (User.points buyer) pv) as [Hlt|_]; [lia|].
  rewrite bool_decide_eq_true_2 by exact Hst.
  eexists; split; [reflexivity|].
  unfold redeemed, balance, newSwapOrderDoc.
  rewrite Hneeded, Hamount, Hseller.
  cbn [users items swapOrders pointsTransactions].
  rewrite !lookup_insert_eq.
  repeat split; try reflexivity; apply fresh_key_None.
Qed.

(** Scenario B: balance 200, listing priced 150, requested through the
    item page. *)
Lemma createSwapOrder_redeems_scenarioB :
  let coat := listing "seller" (Some 150) ItemApproved in
  exists db',
    createSwapOrder 7 (swapOrderData "coat" coat "buyer") (store 200 coat)
      = (Resolved "0", db')
    /\ balance "buyer" db' = Some 50
    /\ swapOrders db' =
         <["0" := SwapOrder.mk "coat" "buyer" (Some "seller") (Some 150)
                    OrderPending 7]> ∅
    /\ Item.status <$> items db' !! "coat" = Some ItemInTransit
    /\ pointsTransactions db' =
         <["0" := PointsTransaction.mk "buyer" (-150) spent
                    "Item purchase (escrowed)" (Some "0") 7]> ∅.
Proof.
  intros coat.
  destruct (createSwapOrder_redeems 7 (store 200 coat)
              (swapOrderData "coat" coat "buyer") coat
              (account "buyer" 200) 150)
    as (db' & Hcall & _ & Hbal & _ & Horders & _ & Hst & _ & Htxs);
    [reflexivity | reflexivity | reflexivity | lia | reflexivity | reflexivity
    | reflexivity | unfold safeInteger; cbn; lia | cbn; lia |].
  exists db'. repeat split; assumption.
Defined.

(** C2, as stated, fails for the same reason: the balance is compared with
    the amount the request carries, not with the listing's point value.
    With balance 100 and the listing priced 150, a request for that listing
    carrying the amount 1 commits: the buyer is debited 1 and the listing
    goes [in-transit]. *)
Lemma createSwapOrder_checks_request_amount :
  let coat := listing "seller" (Some 150) ItemApproved in
  let db := store 100 coat in
  let r := createSwapOrder 7
             (OrderData.mk "coat" "buyer" (Some "seller") (Some 1)) db in
  Item.pointValue coat = Some 150
  /\ balance "buyer" db = Some 100
  /\ fst r = Resolved "0"
  /\ balance "buyer" (snd r) = Some 99
  /\ Item.status <$> items (snd r) !! "coat" = Some ItemInTransit
  /\ is_Some (swapOrders (snd r) !! "0").
Proof.
  intros coat db r. subst r. rewrite createSwapOrder_eq.
  repeat split. eexists. reflexivity.
Qed.

(** C2, amended. A redemption request that fails a check of
    [createSwapOrder] (the buyer's account is missing, the buyer's balance
    is below the amount of the request, the listing is missing, or the
    listing's status is not [approved]) is rejected and the store after the call is the store before it: no
    balance, no listing, no swap order and no transaction has changed. When
    the buyer exists with a balance below the amount, the error raised
    inside the unit is [InsufficientBalance] ("Insufficient points");
    [handleApiError] logs it and reports it to the caller under the message
    [unexpected]. *)
Theorem createSwapOrder_failure_atomic now orderData db :
  users db !! OrderData.buyerId orderData = None
  \/ (exists buyer, users db !! OrderData.buyerId orderData = Some buyer
                    /\ User.points buyer < pointsNeeded orderData)
  \/ items db !! OrderData.itemId orderData = None
  \/ (exists item, items db !! OrderData.itemId orderData = Some item
                   /\ Item.status item <> ItemApproved) ->
  exists logged,
    createSwapOrder now orderData db = (Rejected logged unexpected, db)
    /\ (forall buyer,
          users db !! OrderData.buyerId orderData = Some buyer ->
          User.points buyer < pointsNeeded orderData ->
          logged = InsufficientBalance).
Proof.
  intros Hfail. rewrite createSwapOrder_eq.
  destruct (users db !! OrderData.buyerId orderData) as [buyer|] eqn:Hb.
  - destruct (Z.ltb_spec (User.points buyer) (pointsNeeded orderData))
      as [Hlt|Hge].
    + eexists; split; [reflexivity|]. reflexivity.
    + destruct Hfail as [Hf|[(b & Hf & Hlt)|[Hf|(it & Hf & Hst)]]].
      * discriminate.
      * injection Hf as <-. lia.
      * rewrite Hf. eexists; split; [reflexivity|].
        intros b Hb' Hlt. injection Hb' as <-. lia.
      * rewrite Hf. rewrite bool_decide_eq_false_2 by exact Hst.
        eexists; split; [reflexivity|].
        intros b Hb' Hlt. injection Hb' as <-. lia.
  - eexists; split; [reflexivity|]. intros b Hb'. discriminate.
Qed.

(** Scenario A: balance 100, listing priced 150. *)
Lemma createSwapOrder_failure_atomic_scenarioA :
  let coat := listing "seller" (Some 150) ItemApproved in
  let db := store 100 coat in
  createSwapOrder 7 (swapOrderData "coat" coat "buyer") db
    = (Rejected InsufficientBalance unexpected, db)
  /\ balance "buyer" db = Some 100
  /\ Item.status <$> items db !! "coat" = Some ItemApproved.
Proof.
  intros coat db.
  destruct (createSwapOrder_failure_atomic 7
              (swapOrderData "coat" coat "buyer") db)
    as (logged & Hcall & Hkind).
  - right; left. exists (account "buyer" 100). split; [reflexivity|].
    cbn. lia.
  - rewrite (Hkind (account "buyer" 100)) in Hcall;
      [|reflexivity|cbn; lia].
    split; [exact Hcall|]. split; reflexivity.
Defined.

(** C6, as stated, fails: the buyer is checked before the listing. With a
    buyer of balance 100 and a listing priced 150 whose status is [pending],
    the request is rejected with [InsufficientBalance], which is not
    [ItemUnavailable]. *)
Lemma createSwapOrder_buyer_checked_first :
  let coat := listing "seller" (Some 150) ItemPending in
  let db := store 100 coat in
  (exists item, items db !! "coat" = Some item
                /\ Item.status item <> ItemApproved)
  /\ createSwapOrder 7 (swapOrderData "coat" coat "buyer") db
       = (Rejected InsufficientBalance unexpected, db)
  /\ ~ ItemUnavailable InsufficientBalance.
Proof.
  intros coat db. split; [|split].
  - exists coat. split; [reflexivity|discriminate].
  - rewrite createSwapOrder_eq. reflexivity.
  - intros [H|H]; discriminate.
Qed.

(** C6, amended. A redemption request for a listing that does not exist or
    whose status is not [approved] is rejected and leaves the store
    unchanged. The buyer is checked first: when the buyer's account is
    missing the error is [AccountNotFound]; when the buyer's balance is
    below the amount of the request it is [InsufficientBalance]; in the
    remaining case, where the buyer exists and can pay, it is
    [ItemUnavailable]. *)
Theorem createSwapOrder_unavailable_item now orderData db :
  items db !! OrderData.itemId orderData = None
  \/ (exists item, items db !! OrderData.itemId orderData = Some item
                   /\ Item.status item <> ItemApproved) ->
  exists logged,
    createSwapOrder now orderData db = (Rejected logged unexpected, db)
    /\ match users db !! OrderData.buyerId orderData with
       | None => logged = AccountNotFound
       | Some buyer =>
           if User.points buyer <? pointsNeeded orderData
           then logged = InsufficientBalance
           else ItemUnavailable logged
       end.
Proof.
  intros Hitem. rewrite createSwapOrder_eq.
  destruct (users db !! OrderData.buyerId orderData) as [buyer|].
  - destruct (User.points buyer <? pointsNeeded orderData).
    + eexists; split; reflexivity.
    + destruct Hitem as [Hi|(item & Hi & Hst)]; rewrite Hi.
      * eexists; split; [reflexivity|]. left; reflexivity.
      * rewrite bool_decide_eq_false_2 by exact Hst.
        eexists; split; [reflexivity|]. right; reflexivity.
  - eexists; split; reflexivity.
Qed.

(** A buyer who can pay, and a listing that is still [pending]. *)
Lemma createSwapOrder_unavailable_item_pending :
  let coat := listing "seller" (Some 150) ItemPending in
  let db := store 200 coat in
  exists logged,
    createSwapOrder 7 (swapOrderData "coat" coat "buyer") db
      = (Rejected logged unexpected, db)
    /\ ItemUnavailable logged.
Proof.
  intros coat db.
  destruct (createSwapOrder_unavailable_item 7
              (swapOrderData "coat" coat "buyer") db)
    as (logged & Hcall & Hkind).
  - right. exists coat. split; [reflexivity|discriminate].
  - exists logged. split; [exact Hcall|exact Hkind].
Defined.

(** C7, as stated, fails: [createSwapOrder] does not look at the listing's
    point value. For an approved listing without a point value, a request
    that names it and leaves the amount out has [pointsNeeded] 0, and the
    call commits: a swap order is created and the listing goes
    [in-transit]. *)
Lemma createSwapOrder_without_point_value :
  let coat := listing "seller" None ItemApproved in
  let db := store 100 coat in
  let r := createSwapOrder 7
             (OrderData.mk "coat" "buyer" (Some "seller") None) db in
  Item.pointValue coat = None
  /\ fst r = Resolved "0"
  /\ swapOrders (snd r) !! "0"
       = Some (SwapOrder.mk "coat" "buyer" (Some "seller") None OrderPending 7)
  /\ Item.status <$> items (snd r) !! "coat" = Some ItemInTransit.
Proof.
  intros coat db r. subst r. rewrite createSwapOrder_eq.
  repeat split.
Qed.

(** C7, amended. The point value is checked by the caller: for a listing
    without a point value (absent, or 0) [handleSwapRequest] leaves the
    store unchanged, so no debit is made, no swap order is created and the
    listing keeps its status; with a signed-in user it shows "This item
    doesn't have a point value set" and does not call [createSwapOrder]. *)
Theorem handleSwapRequest_no_point_value now firebaseUser currentUser itemId
    item db :
  noPointValue item = true ->
  snd (handleSwapRequest now firebaseUser currentUser (Some (itemId, item)) db)
    = db
  /\ (forall uid cu,
        firebaseUser = Some uid -> currentUser = Some cu ->
        handleSwapRequest now firebaseUser currentUser (Some (itemId, item)) db
          = (ShowError "This item doesn't have a point value set", db)).
Proof.
  intros Hno. unfold handleSwapRequest. split.
  - destruct firebaseUser, currentUser; try reflexivity.
    rewrite Hno. reflexivity.
  - intros uid cu -> ->. rewrite Hno. reflexivity.
Qed.

Lemma handleSwapRequest_no_point_value_coat :
  let coat := listing "seller" None ItemApproved in
  let db := store 100 coat in
  handleSwapRequest 7 (Some "buyer") (Some (account "buyer" 100))
    (Some ("coat", coat)) db
  = (ShowError "This item doesn't have a point value set", db).
Proof.
  intros coat db.
  destruct (handleSwapRequest_no_point_value 7 (Some "buyer")
              (Some (account "buyer" 100)) "coat" coat db)
    as [_ Hshown]; [reflexivity|].
  apply (Hshown "buyer" (account "buyer" 100)); reflexivity.
Defined.

(** ** Moderation ([moderateItem]) *)

(** C8 fails on the code at every approving call. [moderateItem] buffers
    the listing update and only then reads the owner's account; the client
    refuses the read, the unit aborts, and the call rejects with the
    [invalid-argument] error while the store stays as it was: the listing
    is not approved, the notes are not stored, nobody is credited and no
    transaction is recorded. The rejecting half of the claim holds: with
    [approved = false] the call resolves, the status is [rejected], the
    notes are stored, and no account and no transaction changes. *)
Theorem moderateItem_approval_rejected now db itemId item notes :
  items db !! itemId = Some item ->
  (exists detail,
     moderateItem now itemId true notes db
     = (Rejected (FirebaseError "invalid-argument" detail)
          ("Firebase Error: " ++ detail), db))
  /\ moderateItem now itemId false notes db
     = (Resolved tt,
        mkDB (users db)
          (<[itemId := updateItemModeration item ItemRejected
                         (notesOrEmpty notes)]> (items db))
          (swapOrders db) (pointsTransactions db)).
Proof.
  intros Hitem. rewrite !moderateItem_eq, Hitem. split.
  - eexists. reflexivity.
  - reflexivity.
Qed.

(** Scenarios C and D on the seller's [pending] listing. *)
Lemma moderateItem_approval_rejected_scenarioC :
  let coat := listing "seller" (Some 150) ItemPending in
  let db := store 100 coat in
  (exists detail,
     moderateItem 7 "coat" true None db
     = (Rejected (FirebaseError "invalid-argument" detail)
          ("Firebase Error: " ++ detail), db))
  /\ Item.status <$> items db !! "coat" = Some ItemPending
  /\ balance "seller" db = Some 100
  /\ items (snd (moderateItem 7 "coat" false (Some "low quality images") db))
       !! "coat"
     = Some (updateItemModeration coat ItemRejected "low quality images").
Proof.
  intros coat db.
  destruct (moderateItem_approval_rejected 7 db "coat" coat None)
    as [Happrove _]; [reflexivity|].
  destruct (moderateItem_approval_rejected 7 db "coat" coat
              (Some "low quality images")) as [_ Hreject]; [reflexivity|].
  split; [exact Happrove|]. split; [reflexivity|]. split; [reflexivity|].
  rewrite Hreject. reflexivity.
Defined.

(** C9 fails on the code through the same read after write: on an existing
    listing the first approving call is rejected and changes nothing, and
    so is the second; no call awards anything, so the owner's balance and
    the ledger are after the two calls what they were before them. *)
Theorem moderateItem_twice_rejected now1 now2 notes1 notes2 db itemId item :
  items db !! itemId = Some item ->
  let r1 := moderateItem now1 itemId true notes1 db in
  let r2 := moderateItem now2 itemId true notes2 (snd r1) in
  (exists detail,
     fst r1 = Rejected (FirebaseError "invalid-argument" detail)
                ("Firebase Error: " ++ detail))
  /\ (exists detail,
        fst r2 = Rejected (FirebaseError "invalid-argument" detail)
                   ("Firebase Error: " ++ detail))
  /\ snd r1 = db
  /\ snd r2 = db.
Proof.
  intros Hitem r1 r2. subst r1 r2.
  rewrite !moderateItem_eq, Hitem. cbn [fst snd]. rewrite Hitem. cbn [fst snd].
  repeat split; eexists; reflexivity.
Qed.

Lemma moderateItem_twice_rejected_seller :
  let coat := listing "seller" (Some 150) ItemPending in
  let r1 := moderateItem 7 "coat" true None (store 100 coat) in
  let r2 := moderateItem 8 "coat" true None (snd r1) in
  balance "seller" (snd r2) = Some 100
  /\ pointsTransactions (snd r2) = ∅.
Proof.
  intros coat r1 r2.
  destruct (moderateItem_twice_rejected 7 8 None None (store 100 coat) "coat"
              coat) as (_ & _ & _ & Hdb); [reflexivity|].
  fold r1 in Hdb. fold r2 in Hdb. rewrite Hdb. split; reflexivity.
Defined.

(** ** Account creation ([createUser]) *)

(** C10. [createUser] always resolves with the id it was given. When no
    account exists under that id, the account is created with a balance of
    exactly 100 and nothing else changes: no transaction is recorded. When
    an account exists under that id, the store, and so that account, is left
    as it was. *)
Theorem createUser_welcome_bonus now userData db :
  let uid := UserData.id userData in
  (users db !! uid = None ->
   exists db',
     createUser now userData db = (Resolved uid, db')
     /\ users db' = <[uid := newUserDoc now userData]> (users db)
     /\ balance uid db' = Some 100
     /\ pointsTransactions db' = pointsTransactions db
     /\ items db' = items db
     /\ swapOrders db' = swapOrders db)
  /\ (forall user,
        users db !! uid = Some user ->
        createUser now userData db = (Resolved uid, db)).
Proof.
  intros uid. subst uid. rewrite createUser_eq. split.
  - intros ->. eexists; split; [reflexivity|].
    unfold balance. cbn [users items swapOrders pointsTransactions].
    rewrite lookup_insert_eq. repeat split.
  - intros user ->. reflexivity.
Qed.

Lemma createUser_welcome_bonus_twice :
  let userData :=
    UserData.mk "ann" (Some "ann@example.org") None None (Some 5) None None in
  let r1 := createUser 7 userData emptyDB in
  balance "ann" (snd r1) = Some 100
  /\ pointsTransactions (snd r1) = ∅
  /\ createUser 8 userData (snd r1) = (Resolved "ann", snd r1).
Proof.
  intros userData r1.
  destruct (createUser_welcome_bonus 7 userData emptyDB) as [Hnew _].
  destruct Hnew as (db' & Hcall & Husers & Hbal & Htxs & _); [reflexivity|].
  destruct (createUser_welcome_bonus 8 userData (snd r1)) as [_ Hold].
  subst r1. rewrite Hcall in *. cbn [snd] in *.
  split; [exact Hbal|]. split; [exact Htxs|].
  apply (Hold (newUserDoc 7 userData)).
  rewrite Husers. reflexivity.
Defined.

(** ** Non-negative balances *)

Lemma nonNegativeBalances_insert db db' uid u :
  users db' = <[uid := u]> (users db) ->
  0 <= User.points u ->
  nonNegativeBalances db -> nonNegativeBalances db'.
Proof.
  intros Hus Hu Hdb uid' u' Hlook. rewrite Hus in Hlook.
  destruct (decide (uid = uid')) as [->|Hne].
  - rewrite lookup_insert_eq in Hlook. now injection Hlook as <-.
  - rewrite lookup_insert_ne in Hlook by exact Hne. eapply Hdb, Hlook.
Qed.

Lemma nonNegativeBalances_users db db' :
  users db' = users db -> nonNegativeBalances db -> nonNegativeBalances db'.
Proof. intros Hus Hdb uid u. rewrite Hus. apply Hdb. Qed.

Lemma step_nonNegativeBalances now op db :
  positiveAmount op -> nonNegativeBalances db ->
  nonNegativeBalances (step now op db).
Proof.
  intros Hpos Hdb. destruct op as [ud|od|itemId approved notes|uid amount reason];
    cbn [step positiveAmount] in *.
  - rewrite createUser_eq. cbn [snd].
    destruct (users db !! UserData.id ud); [exact Hdb|].
    eapply nonNegativeBalances_insert; [reflexivity| |exact Hdb]. cbn. lia.
  - rewrite createSwapOrder_eq.
    destruct (users db !! OrderData.buyerId od) as [buyer|]; [|exact Hdb].
    destruct (Z.ltb_spec (User.points buyer) (pointsNeeded od)); [exact Hdb|].
    destruct (items db !! OrderData.itemId od) as [item|]; [|exact Hdb].
    destruct (bool_decide (Item.status item = ItemApproved)); [|exact Hdb].
    eapply nonNegativeBalances_insert; [reflexivity| |exact Hdb]. cbn. lia.
  - rewrite moderateItem_eq.
    destruct (items db !! itemId) as [item|]; [|exact Hdb].
    destruct approved; [exact Hdb|].
    eapply nonNegativeBalances_users; [reflexivity|exact Hdb].
  - rewrite awardPoints_eq.
    destruct (users db !! uid) as [user|] eqn:Hu; [|exact Hdb].
    eapply nonNegativeBalances_insert; [reflexivity| |exact Hdb].
    cbn. specialize (Hdb _ _ Hu). lia.
Qed.

Lemma run_nonNegativeBalances ops : forall db,
  Forall (fun c => positiveAmount (snd c)) ops ->
  nonNegativeBalances db -> nonNegativeBalances (run ops db).
Proof.
  induction ops as [|[now op] ops IH]; intros db Hops Hdb; [exact Hdb|].
  inversion Hops as [|? ? Hop Hops']; subst. cbn [run].
  apply IH; [exact Hops'|]. apply step_nonNegativeBalances; assumption.
Qed.

(** C5. Starting from a store in which no balance is negative, after every
    prefix of every sequence of core operations whose credits
    ([awardPoints]) and debits ([createSwapOrder]) have positive amounts no
    balance is negative. A debit whose amount exceeds the buyer's balance is
    rejected with [InsufficientBalance] and leaves the store, and so the
    balance, unchanged. *)
Theorem balances_never_negative db ops :
  nonNegativeBalances db ->
  Forall (fun c => positiveAmount (snd c)) ops ->
  (forall n, nonNegativeBalances (run (take n ops) db))
  /\ (forall now orderData buyer,
        let db' := run ops db in
        users db' !! OrderData.buyerId orderData = Some buyer ->
        User.points buyer < pointsNeeded orderData ->
        createSwapOrder now orderData db'
          = (Rejected InsufficientBalance unexpected, db')).
Proof.
  intros Hdb Hops. split.
  - intros n. apply run_nonNegativeBalances; [|exact Hdb].
    apply Forall_take, Hops.
  - intros now od buyer db' Hb Hlt. rewrite createSwapOrder_eq, Hb.
    destruct (Z.ltb_spec (User.points buyer) (pointsNeeded od)); [|lia].
    reflexivity.
Qed.

Lemma balances_never_negative_ann :
  let ann := UserData.mk "ann" None None None None None None in
  let ops := [(1, CreateUser ann); (2, AwardPoints "ann" 30 "gift");
              (3, CreateSwapOrder (OrderData.mk "coat" "ann" None (Some 500)))] in
  let db := run ops emptyDB in
  nonNegativeBalances db
  /\ balance "ann" db = Some 130
  /\ createSwapOrder 4 (OrderData.mk "coat" "ann" None (Some 500)) db
       = (Rejected InsufficientBalance unexpected, db).
Proof.
  intros ann ops db.
  destruct (balances_never_negative emptyDB ops) as [Hnn Hdebit].
  - intros uid u Hu. cbn in Hu. rewrite lookup_empty in Hu. discriminate.
  - repeat constructor; cbn; lia.
  - split; [exact (Hnn 3%nat)|]. split; [reflexivity|].
    apply (Hdebit 4 (OrderData.mk "coat" "ann" None (Some 500))
             (User.mk "ann" None None None 130 1 2 false false));
      [reflexivity | cbn; lia].
Defined.

(** ** Ledger and balance *)

Lemma ledgerSum_empty uid : ledgerSum uid ∅ = 0.
Proof. unfold ledgerSum. apply map_fold_empty. Qed.

Lemma ledgerSum_insert uid k t (txs : gmap string PointsTransaction.t) :
  txs !! k = None ->
  ledgerSum uid (<[k := t]> txs)
  = (if decide (PointsTransaction.userId t = uid)
     then PointsTransaction.amount t else 0) + ledgerSum uid txs.
Proof.
  intros Hk. unfold ledgerSum. rewrite map_fold_insert_L.
  - destruct (decide (PointsTransaction.userId t = uid)); lia.
  - intros j1 j2 z1 z2 y _ _ _.
    destruct (decide (PointsTransaction.userId z1 = uid)),
             (decide (PointsTransaction.userId z2 = uid)); lia.
  - exact Hk.
Qed.

(** C3 fails on the code at account creation: after [createUser] on the
    empty store the account's balance is 100 while no transaction is
    recorded for it, so the sum of its transactions is 0. *)
Theorem createUser_unrecorded_bonus :
  let ann := UserData.mk "ann" None None None None None None in
  let db := run [(7, CreateUser ann)] emptyDB in
  balance "ann" db = Some 100
  /\ pointsTransactions db = ∅
  /\ ledgerSum "ann" (pointsTransactions db) = 0.
Proof.
  intros ann db. subst db. cbn [run step]. rewrite createUser_eq.
  split; [reflexivity|]. split; [reflexivity|]. apply ledgerSum_empty.
Qed.

(** Every unit other than account creation moves the balance and the
    ledger together, so over any sequence of core operations from the empty
    store the two stay apart by the 100 granted, unrecorded, at creation. *)
Lemma ledgerOffset_move offset db db' uid u u' k t :
  users db !! uid = Some u ->
  users db' = <[uid := u']> (users db) ->
  pointsTransactions db !! k = None ->
  pointsTransactions db' = <[k := t]> (pointsTransactions db) ->
  PointsTransaction.userId t = uid ->
  User.points u' = User.points u + PointsTransaction.amount t ->
  ledgerOffset offset db -> ledgerOffset offset db'.
Proof.
  intros Hu Hus Hk Htxs Hid Hpts Hinv uid'.
  rewrite Htxs, Hus, (ledgerSum_insert _ _ _ _ Hk), Hinv, Hid.
  destruct (decide (uid = uid')) as [<-|Hne].
  - rewrite lookup_insert_eq, Hu. lia.
  - rewrite lookup_insert_ne by exact Hne. lia.
Qed.

Lemma step_ledgerOffset now op db :
  ledgerOffset 100 db -> ledgerOffset 100 (step now op db).
Proof.
  intros Hinv. destruct op as [ud|od|itemId approved notes|uid amount reason];
    cbn [step].
  - rewrite createUser_eq. cbn [snd].
    destruct (users db !! UserData.id ud) eqn:Hu; [exact Hinv|].
    intros uid. cbn [users pointsTransactions]. rewrite Hinv.
    destruct (decide (UserData.id ud = uid)) as [<-|Hne].
    + rewrite lookup_insert_eq, Hu. cbn. lia.
    + rewrite lookup_insert_ne by exact Hne. reflexivity.
  - rewrite createSwapOrder_eq.
    destruct (users db !! OrderData.buyerId od) as [buyer|] eqn:Hb;
      [|exact Hinv].
    destruct (User.points buyer <? pointsNeeded od); [exact Hinv|].
    destruct (items db !! OrderData.itemId od) as [item|]; [|exact Hinv].
    destruct (bool_decide (Item.status item = ItemApproved)); [|exact Hinv].
    eapply ledgerOffset_move;
      [exact Hb | reflexivity | apply fresh_key_None | reflexivity
      | reflexivity | cbn; lia | exact Hinv].
  - rewrite moderateItem_eq.
    destruct (items db !! itemId) as [item|]; [|exact Hinv].
    destruct approved; exact Hinv.
  - rewrite awardPoints_eq.
    destruct (users db !! uid) as [user|] eqn:Hu; [|exact Hinv].
    eapply ledgerOffset_move;
      [exact Hu | reflexivity | apply fresh_key_None | reflexivity
      | reflexivity | cbn; lia | exact Hinv].
Qed.

Lemma run_ledgerOffset ops : ledgerOffset 100 (run ops emptyDB).
Proof.
  assert (H : forall db, ledgerOffset 100 db -> ledgerOffset 100 (run ops db)).
  { induction ops as [|[now op] ops IH]; intros db Hinv; [exact Hinv|].
    cbn [run]. apply IH, step_ledgerOffset, Hinv. }
  apply H. intros uid. cbn. rewrite lookup_empty. apply ledgerSum_empty.
Qed.

(** ** Redeeming the same listing again *)

(** Once a redemption of a listing has committed, every later request for
    that listing is rejected and changes nothing. *)
Lemma createSwapOrder_serial now1 now2 od1 od2 db orderRef db1 :
  createSwapOrder now1 od1 db = (Resolved orderRef, db1) ->
  OrderData.itemId od2 = OrderData.itemId od1 ->
  exists logged,
    createSwapOrder now2 od2 db1 = (Rejected logged unexpected, db1).
Proof.
  rewrite createSwapOrder_eq. intros Hfirst Hsame.
  destruct (users db !! OrderData.buyerId od1) as [buyer|]; [|discriminate].
  destruct (User.points buyer <? pointsNeeded od1); [discriminate|].
  destruct (items db !! OrderData.itemId od1) as [item|]; [|discriminate].
  destruct (bool_decide (Item.status item = ItemApproved)); [|discriminate].
  injection Hfirst as _ <-.
  rewrite createSwapOrder_eq, Hsame.
  destruct (users _ !! OrderData.buyerId od2) as [buyer2|]; [|eauto].
  destruct (User.points buyer2 <? pointsNeeded od2); [eauto|].
  cbn [redeemed items]. rewrite lookup_insert_eq.
  rewrite bool_decide_eq_false_2 by discriminate. eauto.
Qed.

Lemma createSwapOrder_rejected now orderData db logged error db' :
  createSwapOrder now orderData db = (Rejected logged error, db') ->
  db' = db /\ error = unexpected.
Proof.
  rewrite createSwapOrder_eq.
  destruct (users db !! OrderData.buyerId orderData) as [buyer|].
  - destruct (User.points buyer <? pointsNeeded orderData).
    + intros [= _ <- <-]. split; reflexivity.
    + destruct (items db !! OrderData.itemId orderData) as [item|].
      * destruct (bool_decide (Item.status item = ItemApproved));
          [discriminate|]. intros [= _ <- <-]. split; reflexivity.
      * intros [= _ <- <-]. split; reflexivity.
  - intros [= _ <- <-]. split; reflexivity.
Qed.

(** ** What a redemption leaves alone *)

(** X1. A committed redemption touches one account and one listing: every
    account other than the buyer's is as before (the seller is not
    credited: the points stay in escrow), every other listing is as before,
    and the redeemed listing keeps its owner, its price and its notes. *)
Theorem createSwapOrder_frame now orderData db orderRef db' :
  createSwapOrder now orderData db = (Resolved orderRef, db') ->
  (forall uid, uid <> OrderData.buyerId orderData ->
               users db' !! uid = users db !! uid)
  /\ (forall itemId, itemId <> OrderData.itemId orderData ->
                     items db' !! itemId = items db !! itemId)
  /\ (exists item,
        items db !! OrderData.itemId orderData = Some item
        /\ items db' !! OrderData.itemId orderData
           = Some (Item.mk (Item.title item) (Item.ownerId item)
                     (Item.pointValue item) (Item.openToSwap item)
                     ItemInTransit (Item.moderationNotes item))).
Proof.
  rewrite createSwapOrder_eq. intros Hcall.
  destruct (users db !! OrderData.buyerId orderData) as [buyer|];
    [|discriminate].
  destruct (User.points buyer <? pointsNeeded orderData); [discriminate|].
  destruct (items db !! OrderData.itemId orderData) as [item|] eqn:Hi;
    [|discriminate].
  destruct (bool_decide (Item.status item = ItemApproved)); [|discriminate].
  injection Hcall as _ <-. unfold redeemed. cbn [users items].
  split; [|split].
  - intros uid Hne. now rewrite lookup_insert_ne.
  - intros itemId Hne. now rewrite lookup_insert_ne.
  - exists item. split; [reflexivity|]. now rewrite lookup_insert_eq.
Qed.

Lemma createSwapOrder_frame_seller :
  let coat := listing "seller" (Some 150) ItemApproved in
  let r := createSwapOrder 7 (swapOrderData "coat" coat "buyer")
             (store 200 coat) in
  balance "seller" (snd r) = Some 100.
Proof.
  intros coat r.
  destruct (createSwapOrder_frame 7 (swapOrderData "coat" coat "buyer")
              (store 200 coat) "0" (snd r)) as (Husers & _ & _).
  - subst r. rewrite createSwapOrder_eq. reflexivity.
  - unfold balance. rewrite (Husers "seller"); [reflexivity|discriminate].
Defined.

(** ** Rejected calls *)



(** ** Credits ([awardPoints]) *)

(** X3. [awardPoints] does not check the amount. For an existing account
    and an amount of either sign or zero, with the balance, the amount and
    their sum safe integers, it resolves, moves the balance by the amount,
    records one [earned] transaction of that amount and leaves every other
    account alone; so an amount below minus the balance leaves a negative
    balance. *)
Theorem awardPoints_any_amount now userId amount reason db user :
  users db !! userId = Some user ->
  safeInteger (User.points user) ->
  safeInteger amount ->
  safeInteger (User.points user + amount) ->
  exists db',
    awardPoints now userId amount reason db = (Resolved tt, db')
    /\ balance userId db' = Some (User.points user + amount)
    /\ pointsTransactions db !! fresh (dom (pointsTransactions db)) = None
    /\ pointsTransactions db' =
         <[fresh (dom (pointsTransactions db)) :=
             PointsTransaction.mk userId amount earned reason None now]>
           (pointsTransactions db)
    /\ (forall other, other <> userId -> users db' !! other = users db !! other)
    /\ items db' = items db
    /\ swapOrders db' = swapOrders db
    /\ (amount < - User.points user ->
        exists u', users db' !! userId = Some u' /\ User.points u' < 0).
Proof.
  intros Hu _ _ _. rewrite awardPoints_eq, Hu.
  eexists; split; [reflexivity|].
  unfold credited, balance. cbn [users items swapOrders pointsTransactions].
  rewrite lookup_insert_eq.
  repeat split; try apply fresh_key_None.
  - intros other Hne. now rewrite lookup_insert_ne.
  - intros Hneg. eexists; split; [reflexivity|]. cbn. lia.
Qed.

Lemma awardPoints_any_amount_negative :
  let coat := listing "seller" (Some 150) ItemApproved in
  balance "buyer" (snd (awardPoints 7 "buyer" (-500) "fix" (store 100 coat)))
  = Some (-400).
Proof.
  intros coat.
  destruct (awardPoints_any_amount 7 "buyer" (-500) "fix" (store 100 coat)
              (account "buyer" 100))
    as (db' & Hcall & Hbal & _);
    [reflexivity | unfold safeInteger; cbn; lia | unfold safeInteger; lia
    | unfold safeInteger; cbn; lia |].
  rewrite Hcall. exact Hbal.
Defined.

(** ** Accounts ([createUser], [getUser]) *)

(** X4. Creating the same account again changes nothing: after a first
    [createUser], a second one for the same id, with whatever profile data
    and at whatever time, resolves with the id and leaves the store as the
    first call left it; the welcome bonus is granted once. *)
Theorem createUser_idempotent now1 now2 userData1 userData2 db :
  UserData.id userData2 = UserData.id userData1 ->
  let db1 := snd (createUser now1 userData1 db) in
  createUser now2 userData2 db1 = (Resolved (UserData.id userData1), db1).
Proof.
  intros Hid db1. subst db1. rewrite !createUser_eq, Hid. cbn [snd].
  destruct (users db !! UserData.id userData1) as [u|] eqn:Hu.
  - now rewrite Hu.
  - cbn [users]. now rewrite lookup_insert_eq.
Qed.

Lemma createUser_idempotent_ann :
  let first := UserData.mk "ann" (Some "ann@example.org") None None None None
                 None in
  let again := UserData.mk "ann" None (Some "Ann") None (Some 900) (Some true)
                 None in
  let db1 := snd (createUser 7 first emptyDB) in
  createUser 8 again db1 = (Resolved "ann", db1)
  /\ balance "ann" db1 = Some 100.
Proof.
  intros first again db1. split; [|reflexivity].
  apply (createUser_idempotent 7 8 first again emptyDB). reflexivity.
Defined.

(** X5. What [getUser] returns after [createUser]: an account that existed
    is returned as it was; a new one carries the profile fields that were
    passed, balance 100, both timestamps equal to the time of the call, and
    neither the admin nor the banned flag, whatever [points], [isAdmin] or
    [isBanned] the caller put in the data. *)
Theorem getUser_after_createUser now userData db :
  let uid := UserData.id userData in
  let db' := snd (createUser now userData db) in
  match users db !! uid with
  | Some old => getUser uid db' = Some old
  | None =>
      getUser uid db'
      = Some (User.mk uid (UserData.email userData)
                (UserData.displayName userData) (UserData.photoURL userData)
                100 now now false false)
  end
  /\ (forall other, other <> uid -> getUser other db' = getUser other db).
Proof.
  intros uid db'. subst uid db'. rewrite createUser_eq. cbn [snd].
  unfold getUser.
  destruct (users db !! UserData.id userData) as [old|] eqn:Hu.
  - split; [exact Hu|reflexivity].
  - cbn [users]. split; [apply lookup_insert_eq|].
    intros other Hne. now rewrite lookup_insert_ne.
Qed.

(** ** Listings ([createItem], [getItem], [moderateItem]) *)

Lemma createItem_eq itemData db :
  createItem itemData db =
  (Resolved (fresh (dom (items db))),
   mkDB (users db)
     (<[fresh (dom (items db)) := newItemDoc itemData]> (items db))
     (swapOrders db) (pointsTransactions db)).
Proof. reflexivity. Qed.

(** X6. [createItem] stores the listing under an id that was not in use and
    returns that id; the stored status is [pending] whatever status the
    data carried; [getItem] on the returned id gives back the id and the
    stored fields; every listing that existed is unchanged, and so are the
    accounts, the swap orders and the transactions (no points are
    awarded for listing). *)
Theorem createItem_pending itemData db :
  exists itemId db',
    createItem itemData db = (Resolved itemId, db')
    /\ items db !! itemId = None
    /\ getItem itemId db'
       = Some (itemId,
               Item.mk (ItemData.title itemData) (ItemData.ownerId itemData)
                 (ItemData.pointValue itemData) (ItemData.openToSwap itemData)
                 ItemPending (ItemData.moderationNotes itemData))
    /\ (forall other item, items db !! other = Some item ->
                           getItem other db' = Some (other, item))
    /\ users db' = users db
    /\ swapOrders db' = swapOrders db
    /\ pointsTransactions db' = pointsTransactions db.
Proof.
  rewrite createItem_eq. eexists _, _. split; [reflexivity|].
  split; [apply fresh_key_None|].
  unfold getItem. cbn [users items swapOrders pointsTransactions].
  rewrite lookup_insert_eq. split; [reflexivity|].
  split; [|repeat split].
  intros other item Hother.
  rewrite lookup_insert_ne, Hother; [reflexivity|].
  intros <-. rewrite fresh_key_None in Hother. discriminate.
Qed.

(** X7. A listing cannot be redeemed before it is approved: right after
    [createItem], and again after [moderateItem] has rejected it, every
    [createSwapOrder] for it is rejected and changes nothing, whoever the
    buyer is and whatever amount the request carries. *)
Theorem createItem_not_redeemable now1 now2 now3 itemData notes orderData db :
  let created := createItem itemData db in
  let db1 := snd created in
  let db2 := snd (moderateItem now2 (OrderData.itemId orderData) false notes db1) in
  fst created = Resolved (OrderData.itemId orderData) ->
  (exists logged,
     createSwapOrder now1 orderData db1 = (Rejected logged unexpected, db1))
  /\ (exists logged,
        createSwapOrder now3 orderData db2 = (Rejected logged unexpected, db2)).
Proof.
  intros created db1 db2 Hid. subst created db1 db2.
  rewrite createItem_eq in *. cbn [fst snd] in *. injection Hid as Hid.
  rewrite moderateItem_eq. cbn [items]. rewrite <- Hid, lookup_insert_eq.
  cbn zeta. cbn [snd]. split.
  - rewrite createSwapOrder_eq, <- Hid. cbn [users items].
    destruct (users db !! OrderData.buyerId orderData) as [buyer|]; [|eauto].
    destruct (User.points buyer <? pointsNeeded orderData); [eauto|].
    rewrite lookup_insert_eq. cbn. eauto.
  - rewrite createSwapOrder_eq, <- Hid. cbn [users items].
    destruct (users db !! OrderData.buyerId orderData) as [buyer|]; [|eauto].
    destruct (User.points buyer <? pointsNeeded orderData); [eauto|].
    rewrite lookup_insert_eq. cbn. eauto.
Qed.

Lemma createItem_not_redeemable_scarf :
  let itemData := ItemData.mk "Scarf" "seller" (Some 20) false
                    (Some ItemApproved) None in
  let db := store 200 (listing "seller" (Some 150) ItemApproved) in
  let db1 := snd (createItem itemData db) in
  Item.status <$> items db1 !! "0" = Some ItemPending
  /\ exists logged,
       createSwapOrder 8 (OrderData.mk "0" "buyer" (Some "seller") (Some 20)) db1
       = (Rejected logged unexpected, db1).
Proof.
  intros itemData db db1. split; [reflexivity|].
  destruct (createItem_not_redeemable 8 9 10 itemData None
              (OrderData.mk "0" "buyer" (Some "seller") (Some 20)) db)
    as [Hfirst _]; [reflexivity|].
  exact Hfirst.
Defined.

Lemma createSwapOrder_not_approved now orderData db item :
  items db !! OrderData.itemId orderData = Some item ->
  Item.status item <> ItemApproved ->
  exists logged,
    createSwapOrder now orderData db = (Rejected logged unexpected, db).
Proof.
  intros Hi Hst. rewrite createSwapOrder_eq, Hi.
  destruct (users db !! OrderData.buyerId orderData) as [buyer|]; [|eauto].
  destruct (User.points buyer <? pointsNeeded orderData); [eauto|].
  rewrite bool_decide_eq_false_2 by exact Hst. eauto.
Qed.

(** X8. Moderation does not put a redeemed listing back on offer. After a
    committed redemption, whatever [moderateItem] call follows on the
    listing (an approving one is refused by the client and changes nothing;
    a rejecting one sets the status to [rejected]), the swap orders are the
    ones the redemption left, and every later [createSwapOrder] for the
    listing is rejected and changes nothing. *)
Theorem redeemed_listing_stays_unavailable now1 now2 now3 orderData1
    orderData2 approved notes db orderRef1 db1 :
  createSwapOrder now1 orderData1 db = (Resolved orderRef1, db1) ->
  OrderData.itemId orderData2 = OrderData.itemId orderData1 ->
  let db2 := snd (moderateItem now2 (OrderData.itemId orderData1) approved
                    notes db1) in
  swapOrders db2 = swapOrders db1
  /\ (approved = true -> db2 = db1)
  /\ exists logged,
       createSwapOrder now3 orderData2 db2 = (Rejected logged unexpected, db2).
Proof.
  rewrite createSwapOrder_eq. intros Hfirst Hsame.
  destruct (users db !! OrderData.buyerId orderData1) as [buyer1|];
    [|discriminate].
  destruct (User.points buyer1 <? pointsNeeded orderData1); [discriminate|].
  destruct (items db !! OrderData.itemId orderData1) as [item|];
    [|discriminate].
  destruct (bool_decide (Item.status item = ItemApproved)); [|discriminate].
  injection Hfirst as <- <-.
  rewrite moderateItem_eq. cbn [redeemed items]. rewrite lookup_insert_eq.
  destruct approved; cbn [snd].
  - split; [reflexivity|]. split; [reflexivity|].
    eapply createSwapOrder_not_approved.
    + rewrite Hsame. cbn [redeemed items]. apply lookup_insert_eq.
    + discriminate.
  - split; [reflexivity|]. split; [discriminate|].
    eapply createSwapOrder_not_approved.
    + rewrite Hsame. cbn [items]. apply lookup_insert_eq.
    + discriminate.
Qed.

Lemma redeemed_listing_stays_unavailable_coat :
  let coat := listing "seller" (Some 150) ItemApproved in
  let order uid := swapOrderData "coat" coat uid in
  let db1 := snd (createSwapOrder 7 (order "buyer") (store 200 coat)) in
  let db2 := snd (moderateItem 8 "coat" true None db1) in
  db2 = db1
  /\ Item.status <$> items db2 !! "coat" = Some ItemInTransit
  /\ exists logged,
       createSwapOrder 9 (order "seller") db2 = (Rejected logged unexpected, db2).
Proof.
  intros coat order db1 db2.
  destruct (redeemed_listing_stays_unavailable 7 8 9 (order "buyer")
              (order "seller") true None (store 200 coat) "0" db1)
    as (_ & Hsame & Hrejected); [reflexivity | reflexivity |].
  split; [apply Hsame; reflexivity|]. split; [reflexivity|]. exact Hrejected.
Defined.

(** ** Direct updates ([updateUser], [updateItem], [updateSwapOrder]) *)

(** X9. An update of a document that does not exist is rejected, the caller
    is told "The requested resource was not found", and the store is
    unchanged; this holds for [updateUser], [updateItem] and
    [updateSwapOrder] alike. *)
Theorem update_missing_document now db :
  let message := "The requested resource was not found"%string in
  (forall userId updates,
     users db !! userId = None ->
     exists detail,
       updateUser now userId updates db
       = (Rejected (FirebaseError "not-found" detail) message, db))
  /\ (forall itemId updates,
        items db !! itemId = None ->
        exists detail,
          updateItem itemId updates db
          = (Rejected (FirebaseError "not-found" detail) message, db))
  /\ (forall orderId updates,
        swapOrders db !! orderId = None ->
        exists detail,
          updateSwapOrder orderId updates db
          = (Rejected (FirebaseError "not-found" detail) message, db)).
Proof.
  intros message. split; [|split].
  - intros uid upd Hu. unfold updateUser, updateDoc. rewrite Hu. eauto.
  - intros i upd Hi. unfold updateItem, updateDoc. rewrite Hi. eauto.
  - intros o upd Ho. unfold updateSwapOrder, updateDoc. rewrite Ho. eauto.
Qed.

Lemma update_missing_document_empty :
  exists detail,
    updateUser 7 "ann" (setUserPoints 5) emptyDB
    = (Rejected (FirebaseError "not-found" detail)
         "The requested resource was not found", emptyDB).
Proof.
  destruct (update_missing_document 7 emptyDB) as (Huser & _ & _).
  apply Huser. reflexivity.
Defined.

(** X10. [updateUser] can set a balance outside the ledger: with [points]
    among the updates it resolves, the account's balance is the given
    number and no transaction is recorded, so in a store where every
    balance was 100 plus the sum of the account's transactions it no longer
    is, unless the number given is the balance the account already had. *)
Theorem updateUser_bypasses_ledger now userId points db user :
  ledgerOffset 100 db ->
  users db !! userId = Some user ->
  points <> User.points user ->
  exists db',
    updateUser now userId (setUserPoints points) db = (Resolved tt, db')
    /\ balance userId db' = Some points
    /\ pointsTransactions db' = pointsTransactions db
    /\ ~ ledgerOffset 100 db'.
Proof.
  intros Hinv Hu Hne. unfold updateUser, updateDoc. rewrite Hu.
  eexists; split; [reflexivity|].
  unfold balance. cbn [users pointsTransactions].
  rewrite lookup_insert_eq. repeat split.
  intros Hinv'. specialize (Hinv userId). specialize (Hinv' userId).
  cbn [users pointsTransactions] in Hinv'.
  rewrite lookup_insert_eq in Hinv'. rewrite Hu in Hinv.
  cbn in Hinv'. lia.
Qed.

Lemma updateUser_bypasses_ledger_ann :
  let ann := UserData.mk "ann" None None None None None None in
  let db := run [(7, CreateUser ann)] emptyDB in
  exists db',
    updateUser 8 "ann" (setUserPoints 100000) db = (Resolved tt, db')
    /\ balance "ann" db' = Some 100000
    /\ pointsTransactions db' = ∅.
Proof.
  intros ann db.
  destruct (updateUser_bypasses_ledger 8 "ann" 100000 db
              (newUserDoc 7 ann))
    as (db' & Hcall & Hbal & Htxs & _).
  - apply run_ledgerOffset.
  - reflexivity.
  - cbn. lia.
  - exists db'. split; [exact Hcall|]. split; [exact Hbal|].
    rewrite Htxs. reflexivity.
Defined.

Lemma applyItemUpdates_merge first second item :
  applyItemUpdates (mergeItemUpdates first second) item
  = applyItemUpdates second (applyItemUpdates first item).
Proof.
  destruct first as [t1 o1 p1 s1 st1 n1], second as [t2 o2 p2 s2 st2 n2].
  unfold applyItemUpdates, mergeItemUpdates. cbn.
  destruct t2, o2, p2, s2, st2, n2; reflexivity.
Qed.

(** X11. Two [updateItem] calls on an existing listing amount to one call
    with the merged update object, in which the later call's fields win;
    and an update object without fields (such as the image-only update the
    listing form sends, as far as the modelled fields go) leaves the store
    as it is. *)
Theorem updateItem_compose itemId first second db item :
  items db !! itemId = Some item ->
  updateItem itemId second (snd (updateItem itemId first db))
  = updateItem itemId (mergeItemUpdates first second) db
  /\ updateItem itemId noItemUpdates db = (Resolved tt, db).
Proof.
  intros Hi. unfold updateItem, updateDoc. rewrite Hi.
  cbn [tryApi snd items]. rewrite lookup_insert_eq. cbn [tryApi]. split.
  - rewrite insert_insert_eq, applyItemUpdates_merge. reflexivity.
  - destruct db as [us its os ts]. cbn in *. f_equal. f_equal.
    apply insert_id. rewrite Hi. now destruct item.
Qed.

Lemma updateItem_compose_coat :
  let coat := listing "seller" (Some 150) ItemPending in
  let db := store 100 coat in
  let cheaper := ItemUpdates.mk None None (Some 90) None None None in
  let renamed := ItemUpdates.mk (Some "Coat") None (Some 80) None None None in
  items (snd (updateItem "coat" renamed (snd (updateItem "coat" cheaper db))))
    !! "coat"
  = Some (Item.mk "Coat" "seller" (Some 80) true ItemPending None).
Proof.
  intros coat db cheaper renamed.
  destruct (updateItem_compose "coat" cheaper renamed db coat) as [Hcomp _];
    [reflexivity|].
  rewrite Hcomp. reflexivity.
Defined.

(** X12. [updateItem] can make a listing redeemable without moderation:
    setting [status] to [approved] on an existing listing, whatever its
    status was, resolves without touching any account or recording any
    transaction (the owner gets no award), and afterwards a request for the
    listing by a buyer who can pay commits. *)
Theorem updateItem_bypasses_moderation now itemId item orderData buyer db :
  items db !! itemId = Some item ->
  OrderData.itemId orderData = itemId ->
  users db !! OrderData.buyerId orderData = Some buyer ->
  pointsNeeded orderData <= User.points buyer ->
  exists db1 orderRef db2,
    updateItem itemId (setItemStatus ItemApproved) db = (Resolved tt, db1)
    /\ users db1 = users db
    /\ pointsTransactions db1 = pointsTransactions db
    /\ createSwapOrder now orderData db1 = (Resolved orderRef, db2).
Proof.
  intros Hi Hid Hb Hle. unfold updateItem, updateDoc. rewrite Hi.
  eexists _, _, _. split; [reflexivity|]. split; [reflexivity|].
  split; [reflexivity|].
  rewrite createSwapOrder_eq. cbn [users items]. rewrite Hb, Hid.
  destruct (Z.ltb_spec (User.points buyer) (pointsNeeded orderData)); [lia|].
  rewrite lookup_insert_eq. cbn. reflexivity.
Qed.

Lemma updateItem_bypasses_moderation_coat :
  let coat := listing "seller" (Some 150) ItemPending in
  let db1 := snd (updateItem "coat" (setItemStatus ItemApproved)
                    (store 200 coat)) in
  balance "seller" db1 = Some 100
  /\ exists orderRef db2,
       createSwapOrder 8 (OrderData.mk "coat" "buyer" None (Some 1)) db1
       = (Resolved orderRef, db2).
Proof.
  intros coat db1.
  destruct (updateItem_bypasses_moderation 8 "coat" coat
              (OrderData.mk "coat" "buyer" None (Some 1))
              (account "buyer" 200) (store 200 coat))
    as (db1' & orderRef & db2 & Hupd & Husers & _ & Hcall);
    [reflexivity | reflexivity | reflexivity | cbn; lia |].
  assert (Hdb1 : db1 = db1') by exact (f_equal snd Hupd).
  rewrite Hdb1. split.
  - unfold balance. rewrite Husers. reflexivity.
  - exists orderRef, db2. exact Hcall.
Defined.

(** X13. Updating a swap order never moves points: after a committed
    redemption, [updateSwapOrder] on the new order with any update object
    (a status of [completed] or [disputed] included) resolves and leaves
    every account, every listing and every transaction as the redemption
    left them; neither the seller is paid nor the buyer refunded. *)
Theorem updateSwapOrder_moves_no_points now orderData updates db orderRef db1 :
  createSwapOrder now orderData db = (Resolved orderRef, db1) ->
  exists db2,
    updateSwapOrder orderRef updates db1 = (Resolved tt, db2)
    /\ swapOrders db2 !! orderRef
       = Some (applySwapOrderUpdates updates (newSwapOrderDoc now orderData))
    /\ users db2 = users db1
    /\ items db2 = items db1
    /\ pointsTransactions db2 = pointsTransactions db1
    /\ (forall uid, uid <> OrderData.buyerId orderData ->
                    users db2 !! uid = users db !! uid).
Proof.
  rewrite createSwapOrder_eq. intros Hcall.
  destruct (users db !! OrderData.buyerId orderData) as [buyer|];
    [|discriminate].
  destruct (User.points buyer <? pointsNeeded orderData); [discriminate|].
  destruct (items db !! OrderData.itemId orderData) as [item|];
    [|discriminate].
  destruct (bool_decide (Item.status item = ItemApproved)); [|discriminate].
  injection Hcall as <- <-.
  unfold updateSwapOrder, updateDoc, redeemed. cbn [swapOrders].
  rewrite lookup_insert_eq. eexists; split; [reflexivity|].
  cbn [users items swapOrders pointsTransactions].
  rewrite lookup_insert_eq. repeat split.
  intros uid Hne. now rewrite lookup_insert_ne.
Qed.

Lemma updateSwapOrder_moves_no_points_completed :
  let coat := listing "seller" (Some 150) ItemApproved in
  let db1 := snd (createSwapOrder 7 (swapOrderData "coat" coat "buyer")
                    (store 200 coat)) in
  let completed :=
    SwapOrderUpdates.mk None None None None (Some OrderCompleted) None in
  exists db2,
    updateSwapOrder "0" completed db1 = (Resolved tt, db2)
    /\ balance "seller" db2 = Some 100
    /\ balance "buyer" db2 = Some 50.
Proof.
  intros coat db1 completed.
  destruct (updateSwapOrder_moves_no_points 7
              (swapOrderData "coat" coat "buyer") completed (store 200 coat)
              "0" db1)
    as (db2 & Hcall & _ & Husers & _ & _ & _);
    [subst db1; rewrite createSwapOrder_eq; reflexivity|].
  exists db2. split; [exact Hcall|]. unfold balance. rewrite Husers.
  split; reflexivity.
Defined.

(** ** The redemption handler ([handleSwapRequest]) *)

(** X14. Unless the handler redirects, it has changed nothing: whenever its
    effect is to ignore the click or to show a message, the store after the
    call is the store before it. When it redirects, a redemption for the
    request built from the page's listing has committed. *)
Theorem handleSwapRequest_atomic now firebaseUser currentUser item db :
  let r := handleSwapRequest now firebaseUser currentUser item db in
  match fst r with
  | Redirect _ =>
      exists uid itemId it orderRef,
        firebaseUser = Some uid /\ item = Some (itemId, it)
        /\ createSwapOrder now (swapOrderData itemId it uid) db
           = (Resolved orderRef, snd r)
  | Ignored | ShowError _ => snd r = db
  end.
Proof.
  intros r. subst r. unfold handleSwapRequest.
  destruct firebaseUser as [uid|]; [|reflexivity].
  destruct currentUser as [cu|]; [|reflexivity].
  destruct item as [[itemId it]|]; [|reflexivity].
  destruct (noPointValue it); [reflexivity|].
  destruct (User.points cu <? default 0 (Item.pointValue it)); [reflexivity|].
  destruct (createSwapOrder now (swapOrderData itemId it uid) db)
    as [[orderRef|logged error] db'] eqn:Hcall.
  - cbn. eauto 10.
  - destruct (createSwapOrder_rejected _ _ _ _ _ _ Hcall) as [-> _].
    reflexivity.
Qed.



(** X16. The two checks of the handler and their messages. A profile copy
    with fewer points than the page's price is refused on the page with
    "Insufficient points for this item", without a call to the store. When
    the page's copies pass but the stored balance is below the price, or
    the stored listing is missing or not [approved], the store refuses and
    the page shows "An unexpected error occurred"; nothing changes in
    either case. *)
Theorem handleSwapRequest_messages now uid cu itemId pageItem p db :
  Item.pointValue pageItem = Some p ->
  p <> 0 ->
  (User.points cu < p ->
   handleSwapRequest now (Some uid) (Some cu) (Some (itemId, pageItem)) db
   = (ShowError "Insufficient points for this item", db))
  /\ (p <= User.points cu ->
      (exists buyer, users db !! uid = Some buyer /\ User.points buyer < p)
      \/ items db !! itemId = None
      \/ (exists stored, items db !! itemId = Some stored
                         /\ Item.status stored <> ItemApproved) ->
      handleSwapRequest now (Some uid) (Some cu) (Some (itemId, pageItem)) db
      = (ShowError "An unexpected error occurred", db)).
Proof.
  intros Hp Hp0. unfold handleSwapRequest, noPointValue.
  rewrite Hp. unfold default, from_option, id.
  destruct (Z.eqb_spec p 0) as [|_]; [contradiction|]. split.
  - intros Hlt. destruct (Z.ltb_spec (User.points cu) p); [reflexivity|lia].
  - intros Hge Hfail.
    destruct (Z.ltb_spec (User.points cu) p); [lia|].
    rewrite createSwapOrder_eq.
    rewrite (pointsNeeded_swapOrderData _ _ _ _ Hp).
    cbn [swapOrderData OrderData.buyerId OrderData.itemId].
    destruct (users db !! uid) as [buyer|] eqn:Hb; [|reflexivity].
    destruct (Z.ltb_spec (User.points buyer) p); [reflexivity|].
    destruct Hfail as [(b & Hb' & Hlt)|[Hi|(stored & Hi & Hst)]].
    + injection Hb' as <-. lia.
    + rewrite Hi. reflexivity.
    + rewrite Hi, bool_decide_eq_false_2 by exact Hst. reflexivity.
Qed.

Lemma handleSwapRequest_messages_stale_balance :
  let coat := listing "seller" (Some 150) ItemApproved in
  handleSwapRequest 7 (Some "buyer") (Some (account "buyer" 100))
    (Some ("coat", coat)) (store 200 coat)
  = (ShowError "Insufficient points for this item", store 200 coat)
  /\ handleSwapRequest 7 (Some "buyer") (Some (account "buyer" 200))
       (Some ("coat", coat)) (store 100 coat)
     = (ShowError "An unexpected error occurred", store 100 coat).
Proof.
  intros coat. split.
  - destruct (handleSwapRequest_messages 7 "buyer" (account "buyer" 100)
                "coat" coat 150 (store 200 coat)) as [Hpage _];
      [reflexivity | lia |].
    apply Hpage. cbn. lia.
  - destruct (handleSwapRequest_messages 7 "buyer" (account "buyer" 200)
                "coat" coat 150 (store 100 coat)) as [_ Hstore];
      [reflexivity | lia |].
    apply Hstore; [cbn; lia|].
    left. exists (account "buyer" 100). split; [reflexivity|cbn; lia].
Defined.

(** ** The moderation handler ([handleModeration]) *)

(** X17. What [handleModeration] does with each decision. Rejecting an
    existing listing stores status [rejected] with the notes typed on the
    page (the empty string included), drops exactly the entries with that
    id from the page's pending list, keeping the others in their order, and
    clears the notes field. Approving an existing listing fails: the client
    refuses [moderateItem]'s read after its write, so the store, the
    pending list and the notes stay as they are and the page shows
    "Firebase Error: " followed by the client's message. When the listing
    does not exist, nothing changes either and the page shows "An
    unexpected error occurred". *)
Theorem handleModeration_outcome now itemId approved page db :
  let r := handleModeration now itemId approved page db in
  match items db !! itemId with
  | Some item =>
      if approved then
        exists detail,
          r = (AdminPage.mk (AdminPage.pendingItems page)
                 (AdminPage.moderationNotes page)
                 (Some ("Firebase Error: " ++ detail)%string), db)
      else
        items (snd r) !! itemId
        = Some (updateItemModeration item ItemRejected
                  (AdminPage.moderationNotes page))
        /\ users (snd r) = users db
        /\ pointsTransactions (snd r) = pointsTransactions db
        /\ (forall entry,
              entry ∈ AdminPage.pendingItems (fst r)
              <-> entry ∈ AdminPage.pendingItems page /\ fst entry <> itemId)
        /\ AdminPage.pendingItems (fst r)
             `sublist_of` AdminPage.pendingItems page
        /\ AdminPage.moderationNotes (fst r) = ""
        /\ AdminPage.error (fst r) = AdminPage.error page
  | None =>
      r = (AdminPage.mk (AdminPage.pendingItems page)
             (AdminPage.moderationNotes page) (Some unexpected), db)
  end.
Proof.
  intros r. subst r. unfold handleModeration. rewrite moderateItem_eq.
  destruct (items db !! itemId) as [item|]; [|reflexivity].
  destruct approved.
  - eexists. reflexivity.
  - cbn [fst snd users items pointsTransactions AdminPage.pendingItems
           AdminPage.moderationNotes AdminPage.error].
    split; [apply lookup_insert_eq|]. split; [reflexivity|].
    split; [reflexivity|]. split; [|split; [|split; reflexivity]].
    + intros entry. rewrite list_elem_of_filter. tauto.
    + apply sublist_filter.
Qed.

(** ** The image picker ([handleImageUpload], [removeImage]) *)

Lemma lastError_invalid files file error message :
  fileError file = Some message ->
  lastError (files ++ [file]) error = message.
Proof.
  intros Hf. unfold lastError. rewrite fold_left_app. cbn. now rewrite Hf.
Qed.

Lemma dropIndexFrom_delete {A} (xs : list A) : forall i index,
  dropIndexFrom i index xs
  = if decide (index < i)%nat then xs else delete (index - i)%nat xs.
Proof.
  induction xs as [|x xs IH]; intros i index; cbn [dropIndexFrom].
  - now destruct (decide (index < i)%nat).
  - rewrite IH. destruct (decide (i = index)) as [->|Hne].
    + rewrite bool_decide_eq_false_2 by tauto.
      destruct (decide (index < S index)%nat); [|lia].
      destruct (decide (index < index)%nat); [lia|].
      now rewrite Nat.sub_diag.
    + rewrite bool_decide_eq_true_2 by exact Hne.
      destruct (decide (index < S i)%nat), (decide (index < i)%nat);
        try lia; [reflexivity|].
      replace (index - i)%nat with (S (index - S i)) by lia. reflexivity.
Qed.

Lemma dropIndexFrom_0 {A} index (xs : list A) :
  dropIndexFrom 0 index xs = delete index xs.
Proof.
  rewrite dropIndexFrom_delete.
  destruct (decide (index < 0)%nat); [lia|]. now rewrite Nat.sub_0_r.
Qed.

(** X18. The picker keeps its list within bounds: if the page holds at most
    six images and each of them is an image file of at most 5 MiB, the same
    is true after [handleImageUpload] with any selection of files and after
    [removeImage] at any index. *)
Theorem imagePicker_invariant files index page :
  (length (ListItemPage.images page) <= 6)%nat ->
  Forall validFile (ListItemPage.images page) ->
  ((length (ListItemPage.images (handleImageUpload files page)) <= 6)%nat
   /\ Forall validFile (ListItemPage.images (handleImageUpload files page)))
  /\ ((length (ListItemPage.images (removeImage index page)) <= 6)%nat
      /\ Forall validFile (ListItemPage.images (removeImage index page))).
Proof.
  intros Hlen Hvalid. split.
  - unfold handleImageUpload.
    destruct (Nat.ltb_spec 6 (length (ListItemPage.images page) + length files))
      as [Hmany|Hfew]; [split; assumption|].
    destruct (filter validFile files) as [|f fs] eqn:Hfilter;
      [split; assumption|].
    cbn [ListItemPage.images]. rewrite <- Hfilter. split.
    + rewrite length_app.
      pose proof (length_filter validFile files). lia.
    + apply Forall_app. split; [exact Hvalid|].
      apply Forall_forall. intros f' Hin.
      now apply list_elem_of_filter in Hin as [Hok _].
  - unfold removeImage. cbn [ListItemPage.images].
    rewrite dropIndexFrom_0. split.
    + pose proof (sublist_length _ _
                    (sublist_delete (ListItemPage.images page) index)).
      lia.
    + eapply Forall_impl; [|intros ? H; exact H].
      apply (Forall_forall validFile). intros f Hin.
      apply (proj1 (Forall_forall validFile _) Hvalid).
      eapply sublist_subseteq; [apply sublist_delete|exact Hin].
Qed.

Lemma imagePicker_invariant_example :
  let png := File.mk "a.png" "image/png" 5242880 in
  let big := File.mk "b.png" "image/png" 5242881 in
  let txt := File.mk "notes.txt" "text/plain" 10 in
  let page := handleImageUpload [png; big; txt]
                (ListItemPage.mk [png] [] "") in
  ListItemPage.images page = [png; png]
  /\ Forall validFile (ListItemPage.images page).
Proof.
  intros png big txt page. split; [reflexivity|].
  destruct (imagePicker_invariant [png; big; txt] 0
              (ListItemPage.mk [png] [] "")) as [[_ Hvalid] _].
  - cbn. lia.
  - repeat constructor.
  - exact Hvalid.
Defined.

(** X19. What the picker tells the user. A selection that would bring the
    count above six is refused whole with "Maximum 6 images allowed". A
    selection within the limit that contains at least one acceptable file
    adds the acceptable files, in order, and clears the error field, so the
    files it dropped are not reported. A selection within the limit with no
    acceptable file changes no image and leaves the message of its last
    file. *)
Theorem handleImageUpload_messages files page :
  let page' := handleImageUpload files page in
  ((6 < length (ListItemPage.images page) + length files)%nat ->
   ListItemPage.images page' = ListItemPage.images page
   /\ ListItemPage.error page' = "Maximum 6 images allowed")
  /\ ((length (ListItemPage.images page) + length files <= 6)%nat ->
      (exists file, file ∈ files /\ validFile file) ->
      ListItemPage.images page'
      = (ListItemPage.images page ++ filter validFile files)%list
      /\ ListItemPage.error page' = "")
  /\ ((length (ListItemPage.images page) + length files <= 6)%nat ->
      forall others file message,
        files = (others ++ [file])%list ->
        Forall (fun f => ~ validFile f) files ->
        fileError file = Some message ->
        ListItemPage.images page' = ListItemPage.images page
        /\ ListItemPage.error page' = message).
Proof.
  intros page'. subst page'. unfold handleImageUpload.
  split; [|split].
  - intros Hmany.
    destruct (Nat.ltb_spec 6 (length (ListItemPage.images page) + length files));
      [split; reflexivity|lia].
  - intros Hfew (file & Hin & Hok).
    destruct (Nat.ltb_spec 6 (length (ListItemPage.images page) + length files));
      [lia|].
    destruct (filter validFile files) as [|f fs] eqn:Hfilter;
      [|split; reflexivity].
    assert (Hmem : file ∈ filter validFile files)
      by (apply list_elem_of_filter; split; assumption).
    rewrite Hfilter in Hmem. now apply not_elem_of_nil in Hmem.
  - intros Hfew others file message Hfiles Hnone Hmsg.
    destruct (Nat.ltb_spec 6 (length (ListItemPage.images page) + length files));
      [lia|].
    destruct (filter validFile files) as [|f fs] eqn:Hfilter.
    + cbn. split; [reflexivity|]. rewrite Hfiles.
      now apply lastError_invalid.
    + assert (Hmem : f ∈ filter validFile files)
        by (rewrite Hfilter; apply list_elem_of_here).
      apply list_elem_of_filter in Hmem as [Hok Hin].
      rewrite Forall_forall in Hnone. now destruct (Hnone f Hin).
Qed.

Lemma handleImageUpload_messages_example :
  let png := File.mk "a.png" "image/png" 100 in
  let txt := File.mk "notes.txt" "text/plain" 10 in
  let page := ListItemPage.mk [] [] "" in
  ListItemPage.error (handleImageUpload [txt; png] page) = ""
  /\ ListItemPage.error (handleImageUpload [png; txt] page) = ""
  /\ ListItemPage.error (handleImageUpload [txt] page)
     = "notes.txt is not an image file".
Proof.
  intros png txt page.
  destruct (handleImageUpload_messages [txt; png] page) as (_ & Hmixed1 & _).
  destruct (handleImageUpload_messages [png; txt] page) as (_ & Hmixed2 & _).
  destruct (handleImageUpload_messages [txt] page) as (_ & _ & Hnone).
  split; [|split].
  - apply Hmixed1; [cbn; lia|]. exists png. split; [|reflexivity].
    apply list_elem_of_further, list_elem_of_here.
  - apply Hmixed2; [cbn; lia|]. exists png. split; [|reflexivity].
    apply list_elem_of_here.
  - apply (Hnone ltac:(cbn; lia) [] txt); [reflexivity| |reflexivity].
    repeat constructor. discriminate.
Defined.

(** X20. [removeImage] removes the entry at the given position from the
    images and from the previews alike, keeping the others in order; a
    position at or beyond the end of a list leaves that list as it is. *)
Theorem removeImage_positional index page :
  ListItemPage.images (removeImage index page)
  = delete index (ListItemPage.images page)
  /\ ListItemPage.imagePreviews (removeImage index page)
     = delete index (ListItemPage.imagePreviews page)
  /\ ListItemPage.error (removeImage index page) = ListItemPage.error page
  /\ ((index < length (ListItemPage.images page))%nat ->
      S (length (ListItemPage.images (removeImage index page)))
      = length (ListItemPage.images page))
  /\ ((length (ListItemPage.images page) <= index)%nat ->
      ListItemPage.images (removeImage index page) = ListItemPage.images page).
Proof.
  unfold removeImage. cbn [ListItemPage.images ListItemPage.imagePreviews
                             ListItemPage.error].
  rewrite !dropIndexFrom_0.
  split; [reflexivity|]. split; [reflexivity|]. split; [reflexivity|].
  split.
  - intros Hlt. rewrite length_delete by now apply lookup_lt_is_Some_2.
    lia.
  - intros Hge. revert index Hge.
    induction (ListItemPage.images page) as [|x xs IH];
      intros [|index] Hge; cbn in *; try reflexivity; try lia.
    f_equal. apply IH. lia.
Qed.

(** ** Points history ([getUserTransactions]) *)

#[global] Instance newerFirst_total : Total newerFirst.
Proof.
  intros [k1 t1] [k2 t2]. unfold newerFirst. cbn [fst snd].
  destruct (Z.lt_trichotomy (PointsTransaction.createdAt t1)
              (PointsTransaction.createdAt t2)) as [Hlt|[Heq|Hgt]].
  - right. left. exact Hlt.
  - destruct (String.leb_total k1 k2) as [Hle|Hle].
    + right. right. split; [symmetry; exact Heq|exact Hle].
    + left. right. split; [exact Heq|exact Hle].
  - left. left. exact Hgt.
Qed.

#[global] Instance notOlder_trans : Transitive notOlder.
Proof. intros a b c. unfold notOlder. lia. Qed.

Lemma newerFirst_notOlder a b : newerFirst a b -> notOlder a b.
Proof. unfold newerFirst, notOlder. lia. Qed.

Lemma Sorted_weaken {A} (R S : relation A) l :
  (forall x y, R x y -> S x y) -> Sorted R l -> Sorted S l.
Proof.
  intros HRS Hs. induction Hs as [|x l _ IH Hhd]; constructor; [exact IH|].
  destruct Hhd; constructor; auto.
Qed.

(** The transactions of [userId], newest first, before [limit] applies. *)
Lemma history_sorted userId db :
  StronglySorted notOlder
    (merge_sort newerFirst
       (filter (ofUser userId) (map_to_list (pointsTransactions db)))).
Proof.
  apply Sorted_StronglySorted; [apply _|].
  eapply Sorted_weaken; [apply newerFirst_notOlder|].
  apply Sorted_merge_sort. apply _.
Qed.

Lemma history_elem userId db k t :
  (k, t) ∈ merge_sort newerFirst
             (filter (ofUser userId) (map_to_list (pointsTransactions db)))
  <-> pointsTransactions db !! k = Some t /\ PointsTransaction.userId t = userId.
Proof.
  rewrite merge_sort_Permutation, list_elem_of_filter, elem_of_map_to_list.
  unfold ofUser. cbn. tauto.
Qed.

Lemma history_NoDup userId db :
  NoDup (merge_sort newerFirst
           (filter (ofUser userId) (map_to_list (pointsTransactions db)))).
Proof.
  rewrite merge_sort_Permutation. apply NoDup_filter, NoDup_map_to_list.
Qed.

(** X21. Every page [getUserTransactions] returns is made of distinct
    transactions of the ledger that belong to the user asked for, holds at
    most [pageSize] of them (none when [pageSize] is not positive), and is
    ordered newest first: no entry is older than any entry after it. *)
Theorem getUserTransactions_page userId pageSize db :
  let page := getUserTransactions userId pageSize db in
  Z.of_nat (length page) <= Z.max 0 pageSize
  /\ (forall k t, (k, t) ∈ page ->
                  pointsTransactions db !! k = Some t
                  /\ PointsTransaction.userId t = userId)
  /\ NoDup page
  /\ StronglySorted notOlder page.
Proof.
  intros page. subst page. unfold getUserTransactions.
  destruct (Z.leb_spec pageSize 0) as [Hle|Hlt].
  - split; [cbn; lia|]. split; [intros k t Hin; now apply not_elem_of_nil in Hin|].
    split; constructor.
  - set (all := merge_sort newerFirst _).
    split; [rewrite length_take; lia|]. split; [|split].
    + intros k t Hin. apply history_elem.
      eapply subseteq_take, Hin.
    + eapply sublist_NoDup; [apply history_NoDup|apply sublist_take].
    + apply (StronglySorted_app_1_l _ _ (drop (Z.to_nat pageSize) all)).
      rewrite take_drop. apply history_sorted.
Qed.

Lemma sumAmounts_Permutation l1 l2 :
  l1 ≡ₚ l2 -> sumAmounts l1 = sumAmounts l2.
Proof.
  unfold sumAmounts.
  induction 1 as [|x l1 l2 _ IH|x y l|l1 l2 l3 _ IH1 _ IH2]; cbn [foldr];
    [reflexivity | now rewrite IH | lia | congruence].
Qed.

Lemma sumAmounts_filter userId l :
  sumAmounts (filter (ofUser userId) l)
  = foldr (uncurry (fun (_ : string) t acc =>
                      if decide (PointsTransaction.userId t = userId)
                      then PointsTransaction.amount t + acc else acc)) 0 l.
Proof.
  induction l as [|[k t] l IH]; [reflexivity|].
  rewrite filter_cons. cbn [foldr uncurry]. rewrite <- IH.
  unfold ofUser at 1. cbn [snd].
  destruct (decide (PointsTransaction.userId t = userId)); reflexivity.
Qed.

(** A page that is large enough holds the whole history, and its amounts
    add up to the ledger sum. *)
Lemma history_complete userId pageSize db :
  Z.of_nat (length (filter (ofUser userId)
                      (map_to_list (pointsTransactions db)))) <= pageSize ->
  getUserTransactions userId pageSize db
    ≡ₚ filter (ofUser userId) (map_to_list (pointsTransactions db))
  /\ sumAmounts (getUserTransactions userId pageSize db)
     = ledgerSum userId (pointsTransactions db).
Proof.
  intros Hlen.
  assert (Hperm : getUserTransactions userId pageSize db
                    ≡ₚ filter (ofUser userId)
                         (map_to_list (pointsTransactions db))).
  { unfold getUserTransactions.
    destruct (Z.leb_spec pageSize 0) as [Hle|Hlt].
    - destruct (filter _ _); [reflexivity|cbn in Hlen; lia].
    - rewrite take_ge; [apply merge_sort_Permutation|].
      rewrite merge_sort_Permutation. lia. }
  split; [exact Hperm|].
  rewrite (sumAmounts_Permutation _ _ Hperm), sumAmounts_filter.
  unfold ledgerSum. now rewrite map_fold_foldr.
Qed.

(** X22. When [pageSize] is at least the number of transactions recorded
    for the user, the page is the user's whole history: it contains every
    transaction of the ledger that belongs to the user, and its amounts add
    up to the sum of the user's transactions. *)
Theorem getUserTransactions_complete userId pageSize db :
  let history :=
    filter (ofUser userId) (map_to_list (pointsTransactions db)) in
  let page := getUserTransactions userId pageSize db in
  Z.of_nat (length history) <= pageSize ->
  page ≡ₚ history
  /\ (forall k t, pointsTransactions db !! k = Some t ->
                  PointsTransaction.userId t = userId -> (k, t) ∈ page)
  /\ sumAmounts page = ledgerSum userId (pointsTransactions db).
Proof.
  intros history page Hlen.
  destruct (history_complete userId pageSize db Hlen) as [Hperm Hsum].
  split; [exact Hperm|]. split; [|exact Hsum].
  intros k t Hk Hu. subst page. rewrite Hperm.
  apply list_elem_of_filter. split; [exact Hu|].
  now apply elem_of_map_to_list.
Qed.

Lemma getUserTransactions_complete_sample :
  sumAmounts (getUserTransactions "ann" 20 sampleStore) = -5
  /\ ledgerSum "ann" (pointsTransactions sampleStore) = -5
  /\ balance "ann" sampleStore = Some 95.
Proof.
  destruct (getUserTransactions_complete "ann" 20 sampleStore)
    as (_ & _ & Hsum).
  - vm_compute. discriminate.
  - rewrite <- Hsum. repeat split.
Defined.

(** ** Stores reached by sequences of calls *)

Lemma stepCall_transition now call db :
  exists mid, transition db mid /\ transition mid (stepCall now call db).
Proof.
  destruct call as [[ud|od|itemId approved notes|uid amount reason]|itemData];
    cbn [stepCall step].
  - rewrite createUser_eq. cbn [snd].
    destruct (users db !! UserData.id ud) eqn:Hu.
    + exists db. split; constructor.
    + exists db. split; [constructor|]. now apply tr_user.
  - rewrite createSwapOrder_eq.
    destruct (users db !! OrderData.buyerId od) as [buyer|] eqn:Hb;
      [|exists db; split; constructor].
    destruct (User.points buyer <? pointsNeeded od);
      [exists db; split; constructor|].
    destruct (items db !! OrderData.itemId od) as [item|] eqn:Hi;
      [|exists db; split; constructor].
    destruct (bool_decide (Item.status item = ItemApproved));
      [|exists db; split; constructor].
    exists db. split; [constructor|]. now apply tr_redeem.
  - rewrite moderateItem_eq.
    destruct (items db !! itemId) as [item|] eqn:Hi;
      [|exists db; split; constructor].
    destruct approved; [exists db; split; constructor|].
    exists db. split; [constructor|]. cbn [snd]. now apply tr_moderate.
  - rewrite awardPoints_eq.
    destruct (users db !! uid) as [user|] eqn:Hu;
      [|exists db; split; constructor].
    exists db. split; [constructor|]. now apply tr_credit.
  - rewrite createItem_eq. cbn [snd].
    exists db. split; [constructor|]. now apply tr_item.
Qed.

(** A property kept by every elementary change holds along every sequence
    of calls. *)
Lemma runCalls_invariant (P : DB -> Prop) :
  (forall db db', transition db db' -> P db -> P db') ->
  forall calls db, P db -> P (runCalls calls db).
Proof.
  intros Hstep calls.
  induction calls as [|[now call] calls IH]; intros db HP; [exact HP|].
  cbn [runCalls]. apply IH.
  destruct (stepCall_transition now call db) as (mid & H1 & H2).
  eapply Hstep; [exact H2|]. eapply Hstep; [exact H1|exact HP].
Qed.

Lemma lookup_insert_fresh {A} (m : gmap string A) k x v :
  m !! k = Some x -> <[fresh (dom m) := v]> m !! k = Some x.
Proof.
  intros Hk. rewrite lookup_insert_ne; [exact Hk|].
  intros <-. rewrite fresh_key_None in Hk. discriminate.
Qed.

Lemma is_Some_insert {A} (m : gmap string A) j v k :
  is_Some (m !! k) -> is_Some (<[j := v]> m !! k).
Proof.
  intros Hk. destruct (decide (j = k)) as [->|Hne].
  - rewrite lookup_insert_eq. eauto.
  - now rewrite lookup_insert_ne.
Qed.

(** X23. The ledger and the order book only grow, and accounts and listings
    are never removed: along every sequence of calls ([createUser],
    [createItem], [createSwapOrder], [moderateItem], [awardPoints]) from any
    store, every transaction and every swap order that was recorded is
    still there unchanged, and every account and every listing that existed
    still exists. *)
Theorem calls_append_only calls db :
  let db' := runCalls calls db in
  pointsTransactions db ⊆ pointsTransactions db'
  /\ swapOrders db ⊆ swapOrders db'
  /\ dom (users db) ⊆ dom (users db')
  /\ dom (items db) ⊆ dom (items db').
Proof.
  intros db'. subst db'.
  apply (runCalls_invariant (fun d =>
           pointsTransactions db ⊆ pointsTransactions d
           /\ swapOrders db ⊆ swapOrders d
           /\ dom (users db) ⊆ dom (users d)
           /\ dom (items db) ⊆ dom (items d))); [|repeat split; reflexivity].
  clear. intros d d' Htr (Htx & Hso & Hus & Hit).
  destruct Htr; unfold redeemed, credited;
    cbn [users items swapOrders pointsTransactions];
    rewrite ?dom_insert_L; repeat split;
    try assumption; try set_solver;
    (etrans; [eassumption|]); apply insert_subseteq, fresh_key_None.
Qed.

Lemma calls_append_only_sample :
  let db' := runCalls [(7, Core (AwardPoints "ann" 5 "gift"))] sampleStore in
  pointsTransactions sampleStore ⊆ pointsTransactions db'
  /\ swapOrders sampleStore ⊆ swapOrders db'.
Proof.
  intros db'.
  destruct (calls_append_only [(7, Core (AwardPoints "ann" 5 "gift"))]
              sampleStore) as (Htx & Hso & _).
  split; assumption.
Defined.

(** X24. No call of a sequence changes who an account is: along every
    sequence of calls an existing account stays in the store with the same
    [id], [email], [displayName], [photoURL], [createdAt], [isAdmin] and
    [isBanned]; only its balance and [lastActive] can differ. In
    particular no sequence of these calls makes an account an admin. *)
Theorem calls_keep_profiles calls db userId user :
  users db !! userId = Some user ->
  exists user',
    users (runCalls calls db) !! userId = Some user'
    /\ sameProfile user user'.
Proof.
  intros Hu.
  apply (runCalls_invariant (fun d =>
           exists user', users d !! userId = Some user'
                         /\ sameProfile user user'));
    [|exists user; split; [exact Hu|repeat split]].
  clear. intros d d' Htr (u' & Hu' & Hsame).
  destruct Htr as [|uid u Hnew|item Hst|now od buyer item Hb Hi
                  |itemId item approved notes Hi|now uid u0 amount reason Hu0];
    unfold redeemed, credited; cbn [users]; eauto.
  - exists u'. split; [|exact Hsame].
    rewrite lookup_insert_ne; [exact Hu'|]. intros ->. congruence.
  - destruct (decide (OrderData.buyerId od = userId)) as [Heq|Hne].
    + rewrite Heq in *. rewrite lookup_insert_eq. eexists; split; [reflexivity|].
      assert (buyer = u') as -> by congruence. exact Hsame.
    + rewrite lookup_insert_ne by exact Hne. eauto.
  - destruct (decide (uid = userId)) as [Heq|Hne].
    + rewrite Heq in *. rewrite lookup_insert_eq. eexists; split; [reflexivity|].
      assert (u0 = u') as -> by congruence. exact Hsame.
    + rewrite lookup_insert_ne by exact Hne. eauto.
Qed.

Lemma calls_keep_profiles_sample :
  exists user',
    users sampleStore !! "ann" = Some user'
    /\ User.isAdmin user' = false /\ User.createdAt user' = 1.
Proof.
  destruct (calls_keep_profiles sampleCalls listedStore "ann"
              (User.mk "ann" None None None 100 1 1 false false))
    as (user' & Hu & _ & _ & _ & _ & Hcreated & Hadmin & _); [reflexivity|].
  exists user'. split; [exact Hu|]. split; assumption.
Defined.

(** X25. No call of a sequence changes what a listing offers: along every
    sequence of calls an existing listing stays in the store with the same
    [title], [ownerId], [pointValue] and [openToSwap]; only its status and
    its moderation notes can differ. *)
Theorem calls_keep_offers calls db itemId item :
  items db !! itemId = Some item ->
  exists item',
    items (runCalls calls db) !! itemId = Some item'
    /\ sameOffer item item'.
Proof.
  intros Hi.
  apply (runCalls_invariant (fun d =>
           exists item', items d !! itemId = Some item'
                         /\ sameOffer item item'));
    [|exists item; split; [exact Hi|repeat split]].
  clear. intros d d' Htr (it' & Hit' & Hsame).
  destruct Htr as [|uid u Hnew|item0 Hst|now od buyer item0 Hb Hi0
                  |itemId0 item0 approved notes Hi0|now uid u0 amount reason Hu0];
    unfold redeemed, credited; cbn [items]; eauto.
  - exists it'. split; [|exact Hsame]. now apply lookup_insert_fresh.
  - destruct (decide (OrderData.itemId od = itemId)) as [Heq|Hne].
    + rewrite Heq in *. rewrite lookup_insert_eq. eexists; split; [reflexivity|].
      assert (item0 = it') as -> by congruence. exact Hsame.
    + rewrite lookup_insert_ne by exact Hne. eauto.
  - destruct (decide (itemId0 = itemId)) as [Heq|Hne].
    + rewrite Heq in *. rewrite lookup_insert_eq. eexists; split; [reflexivity|].
      assert (item0 = it') as -> by congruence. exact Hsame.
    + rewrite lookup_insert_ne by exact Hne. eauto.
Qed.

Lemma calls_keep_offers_sample :
  exists item',
    items sampleStore !! "0" = Some item'
    /\ Item.ownerId item' = "bob" /\ Item.pointValue item' = Some 30.
Proof.
  destruct (calls_keep_offers sampleCalls listedStore "0"
              (Item.mk "Scarf" "bob" (Some 30) false ItemApproved None))
    as (item' & Hi & _ & Howner & Hprice & _); [reflexivity|].
  exists item'. split; [exact Hi|]. split; assumption.
Defined.

Lemma pointsNeeded_default orderData :
  pointsNeeded orderData = default 0 (OrderData.pointsAmount orderData).
Proof. unfold pointsNeeded. now destruct (OrderData.pointsAmount orderData). Qed.

Lemma transition_referenced db db' :
  transition db db' ->
  transactionsReferenced db /\ ordersReferenced db ->
  transactionsReferenced db' /\ ordersReferenced db'.
Proof.
  intros Htr [Htx Hso].
  assert (Hkeep : forall k t,
            pointsTransactions db !! k = Some t ->
            (forall uid, is_Some (users db !! uid) -> is_Some (users db' !! uid)) ->
            (forall oid o, swapOrders db !! oid = Some o ->
                           swapOrders db' !! oid = Some o) ->
            is_Some (users db' !! PointsTransaction.userId t)
            /\ match PointsTransaction.type t with
               | earned => PointsTransaction.relatedOrderId t = None
               | spent =>
                   exists orderId o,
                     PointsTransaction.relatedOrderId t = Some orderId
                     /\ swapOrders db' !! orderId = Some o
                     /\ SwapOrder.buyerId o = PointsTransaction.userId t
                     /\ PointsTransaction.amount t
                        = - default 0 (SwapOrder.pointsAmount o)
               | expired | refunded => False
               end).
  { intros k t Hk Hus Hos. destruct (Htx k t Hk) as [Hu Hty].
    split; [now apply Hus|].
    destruct (PointsTransaction.type t); try assumption.
    destruct Hty as (oid & o & Hrel & Ho & Hrest). eauto 10. }
  assert (Hkeepo : forall k o,
            swapOrders db !! k = Some o ->
            (forall uid, is_Some (users db !! uid) -> is_Some (users db' !! uid)) ->
            (forall i, is_Some (items db !! i) -> is_Some (items db' !! i)) ->
            SwapOrder.status o = OrderPending
            /\ is_Some (users db' !! SwapOrder.buyerId o)
            /\ is_Some (items db' !! SwapOrder.itemId o)).
  { intros k o Hk Hus His. destruct (Hso k o Hk) as (Hst & Hu & Hi). auto. }
  destruct Htr as [|uid u Hnew|item Hst|now od buyer item Hb Hi
                  |itemId item approved notes Hi|now uid u0 amount reason Hu0].
  - split; assumption.
  - split.
    + intros k t Hk. apply (Hkeep k t Hk); [|auto].
      intros uid'. apply is_Some_insert.
    + intros k o Hk. apply (Hkeepo k o Hk); [|auto].
      intros uid'. apply is_Some_insert.
  - split.
    + intros k t Hk. apply (Hkeep k t Hk); auto.
    + intros k o Hk. apply (Hkeepo k o Hk); [auto|].
      intros i. apply is_Some_insert.
  - assert (Hus : forall uid, is_Some (users db !! uid) ->
                              is_Some (users (redeemed now od buyer item db) !! uid))
      by (intros uid'; apply is_Some_insert).
    assert (His : forall i, is_Some (items db !! i) ->
                            is_Some (items (redeemed now od buyer item db) !! i))
      by (intros i; apply is_Some_insert).
    assert (Hos : forall oid o, swapOrders db !! oid = Some o ->
                    swapOrders (redeemed now od buyer item db) !! oid = Some o)
      by (intros oid o; apply lookup_insert_fresh).
    split.
    + intros k t. unfold redeemed at 1. cbn [pointsTransactions].
      destruct (decide (fresh (dom (pointsTransactions db)) = k)) as [<-|Hne].
      * rewrite lookup_insert_eq. intros [= <-].
        cbn [PointsTransaction.userId PointsTransaction.type
               PointsTransaction.relatedOrderId PointsTransaction.amount].
        split; [apply Hus; rewrite Hb; eauto|].
        eexists _, _. split; [reflexivity|]. unfold redeemed.
        cbn [swapOrders]. rewrite lookup_insert_eq.
        split; [reflexivity|]. split; [reflexivity|].
        cbn. now rewrite pointsNeeded_default.
      * rewrite lookup_insert_ne by exact Hne. intros Hk.
        now apply (Hkeep k t Hk).
    + intros k o. unfold redeemed at 1. cbn [swapOrders].
      destruct (decide (fresh (dom (swapOrders db)) = k)) as [<-|Hne].
      * rewrite lookup_insert_eq. intros [= <-].
        cbn [newSwapOrderDoc SwapOrder.status SwapOrder.buyerId
               SwapOrder.itemId].
        split; [reflexivity|]. split.
        -- apply Hus. rewrite Hb. eauto.
        -- apply His. rewrite Hi. eauto.
      * rewrite lookup_insert_ne by exact Hne. intros Hk.
        now apply (Hkeepo k o Hk).
  - split.
    + intros k t Hk. apply (Hkeep k t Hk); auto.
    + intros k o Hk. apply (Hkeepo k o Hk); [auto|].
      intros i. apply is_Some_insert.
  - assert (Hus : forall uid', is_Some (users db !! uid') ->
                    is_Some (users (credited now uid u0 amount reason db) !! uid'))
      by (intros uid'; apply is_Some_insert).
    split.
    + intros k t. unfold credited at 1. cbn [pointsTransactions].
      destruct (decide (fresh (dom (pointsTransactions db)) = k)) as [<-|Hne].
      * rewrite lookup_insert_eq. intros [= <-].
        cbn [PointsTransaction.userId PointsTransaction.type
               PointsTransaction.relatedOrderId].
        split; [apply Hus; rewrite Hu0; eauto|reflexivity].
      * rewrite lookup_insert_ne by exact Hne. intros Hk.
        apply (Hkeep k t Hk); auto.
    + intros k o Hk. apply (Hkeepo k o Hk); auto.
Qed.

(** X26. The records stay linked. Along every sequence of calls from a
    store in which this holds (the empty store in particular): every
    transaction belongs to an existing account and is of type [earned] or
    [spent], never [refunded] or [expired]; every [spent] transaction names
    an existing swap order of the same buyer whose amount it negates; and
    every swap order is [pending] and names an existing buyer and an
    existing listing. *)
Theorem calls_keep_references calls db :
  transactionsReferenced db -> ordersReferenced db ->
  transactionsReferenced (runCalls calls db)
  /\ ordersReferenced (runCalls calls db).
Proof.
  intros Htx Hso.
  apply (runCalls_invariant (fun d =>
           transactionsReferenced d /\ ordersReferenced d));
    [|split; assumption].
  intros d d'. apply transition_referenced.
Qed.

Lemma calls_keep_references_sample :
  transactionsReferenced sampleStore /\ ordersReferenced sampleStore.
Proof.
  apply (calls_keep_references sampleCalls listedStore).
  - intros k t Hk.
    change (pointsTransactions listedStore)
      with (∅ : gmap string PointsTransaction.t) in Hk.
    rewrite lookup_empty in Hk. discriminate.
  - intros k o Hk.
    change (swapOrders listedStore) with (∅ : gmap string SwapOrder.t) in Hk.
    rewrite lookup_empty in Hk. discriminate.
Defined.

(** X27. A listing is [in-transit] only if somebody redeemed it: along
    every sequence of calls from a store in which every [in-transit]
    listing has a swap order (the empty store in particular), every
    [in-transit] listing has a swap order that names it. *)
Theorem calls_keep_inTransit_ordered calls db :
  inTransitOrdered db -> inTransitOrdered (runCalls calls db).
Proof.
  apply (runCalls_invariant inTransitOrdered).
  clear. intros d d' Htr Hinv.
  destruct Htr as [|uid u Hnew|item Hst|now od buyer item Hb Hi
                  |itemId item approved notes Hi|now uid u0 amount reason Hu0];
    try exact Hinv; intros i it; unfold redeemed; cbn [items swapOrders].
  - destruct (decide (fresh (dom (items d)) = i)) as [<-|Hne].
    + rewrite lookup_insert_eq. intros [= <-] Hit. congruence.
    + rewrite lookup_insert_ne by exact Hne. apply Hinv.
  - destruct (decide (OrderData.itemId od = i)) as [<-|Hne].
    + intros _ _. eexists _, _. split; [apply lookup_insert_eq|reflexivity].
    + rewrite lookup_insert_ne by exact Hne. intros Hit Hst.
      destruct (Hinv i it Hit Hst) as (k & o & Ho & Hid).
      exists k, o. split; [now apply lookup_insert_fresh|exact Hid].
  - destruct (decide (itemId = i)) as [<-|Hne].
    + rewrite lookup_insert_eq. intros [= <-].
      unfold moderated, updateItemModeration. cbn. now destruct approved.
    + rewrite lookup_insert_ne by exact Hne. apply Hinv.
Qed.

Lemma calls_keep_inTransit_ordered_sample :
  Item.status <$> items sampleStore !! "0" = Some ItemInTransit
  /\ exists k o,
       swapOrders sampleStore !! k = Some o /\ SwapOrder.itemId o = "0".
Proof.
  split; [reflexivity|].
  assert (Hinv : inTransitOrdered sampleStore).
  { apply (calls_keep_inTransit_ordered sampleCalls listedStore).
    intros i it Hi Hst.
    change (items listedStore)
      with (<["0" := Item.mk "Scarf" "bob" (Some 30) false ItemApproved None]>
              (∅ : gmap string Item.t)) in Hi.
    apply lookup_insert_Some in Hi as [[_ <-]|[_ Hi]]; [discriminate|].
    rewrite lookup_empty in Hi. discriminate. }
  apply (Hinv "0" (Item.mk "Scarf" "bob" (Some 30) false ItemInTransit None));
    reflexivity.
Defined.

Lemma runCalls_ledgerOffset calls db :
  ledgerOffset 100 db -> ledgerOffset 100 (runCalls calls db).
Proof.
  revert db. induction calls as [|[now call] calls IH]; intros db Hinv;
    [exact Hinv|].
  cbn [runCalls]. apply IH. destruct call as [op|itemData]; cbn [stepCall].
  - now apply step_ledgerOffset.
  - exact Hinv.
Qed.

(** X28. The history reconciles with the balance. In every store reached
    from the empty store by a sequence of calls whose amounts, and the
    balances they produce along the way, are safe integers, for every
    account, a page of [getUserTransactions] that is large enough to hold
    the account's whole history has amounts that add up to the account's
    balance minus the 100 points granted at sign-up. *)
Theorem history_reconciles calls userId user pageSize :
  let db := runCalls calls emptyDB in
  (forall n, safeBalances (runCalls (take n calls) emptyDB)) ->
  Forall (fun c => safeAmount (snd c)) calls ->
  users db !! userId = Some user ->
  Z.of_nat (length (filter (ofUser userId)
                      (map_to_list (pointsTransactions db)))) <= pageSize ->
  User.points user
  = 100 + sumAmounts (getUserTransactions userId pageSize db).
Proof.
  intros db _ _ Hu Hlen.
  destruct (history_complete userId pageSize db Hlen) as [_ ->].
  assert (Hinv : ledgerOffset 100 db).
  { apply runCalls_ledgerOffset. intros uid. cbn. rewrite lookup_empty.
    apply ledgerSum_empty. }
  specialize (Hinv userId). rewrite Hu in Hinv. lia.
Qed.

Lemma history_reconciles_sample :
  let calls := (sampleSetup ++ [(5, Core (AwardPoints "ann" 25 "referral"))])%list in
  balance "ann" (runCalls calls emptyDB) = Some 125
  /\ 125 = 100 + sumAmounts (getUserTransactions "ann" 20
                               (runCalls calls emptyDB)).
Proof.
  intros calls. split; [reflexivity|].
  apply (history_reconciles calls "ann"
           (User.mk "ann" None None None 125 1 5 false false) 20).
  - intros n.
    do 4 (destruct n as [|n];
          [refine (bool_decide_unpack _ _); vm_compute; exact I|]).
    rewrite take_ge by (cbn; lia).
    refine (bool_decide_unpack _ _). vm_compute. exact I.
  - repeat constructor; unfold safeInteger; cbn; lia.
  - reflexivity.
  - vm_compute. discriminate.
Defined.
